(** * cdk-constructs: SecureWebsite and AccountConfigStack

    A shallow embedding of the two constructs of the repository,
    [SecureWebsite] (spa-construct/lib/constructs) and [AccountConfigStack]
    (account-config/lib/account-config-stack.ts), and the properties of
    their resolution logic.

    Conventions of the embedding.
    - A construct scope is the ordered list of the children declared in it,
      each under its construct id; [new X(this, id, props)] appends one.
    - The construct library is not part of the repository. It refuses a
      second child under an id that is already taken in the scope (section
      4.1 of the specification) and stores an id with every '/' replaced by
      '--'. [AccountConfigStack], whose ids are made from the keys of its
      input, is modelled with both. In [SecureWebsite] only the address
      sets have ids made from the input, and the properties that need these
      ids to be free say so ([ipSetNamesFree]). The other checks of the
      library on which a property depends are hypotheses of that property:
      the names [ssm.StringParameter] accepts ([accepted]), the zone in
      which a record can be declared ([zoneLookedUp]), and the directory of
      a content source, which the library reads (what follows the
      deployment is stated for specs without a source).
    - An optional property [p?: T] is an [option T]; [None] is [undefined].
    - [a || b], [a ? b : c] and [if (a)] follow JavaScript truthiness: the
      empty string and the number 0 are falsy, objects and arrays (also
      empty ones) are truthy.
    - The numbers of a rule (priority, limit) are integers, a [Z]; the
      numbers inside a JSON document stay abstract. A string is a [string]
      of code units.
    - A plain object used as a map is the list of its own properties in
      enumeration order ([JS.get]); reading [o[k]] also finds what the
      object inherits from [Object.prototype] ([JS.read]).
    - A generated identifier (an ARN, a bucket name, a distribution id) is
      a token naming the construct and the attribute. *)

From Stdlib Require Import String Ascii List ZArith Bool Lia.
Import ListNotations.
Local Open Scope string_scope.
Local Open Scope list_scope.
Set Warnings "-register-all".

(** ** JavaScript operators the source relies on *)

Module JS.

(** Truthiness of a string: only the empty string is falsy. *)
Definition truthy_string (s : string) : bool :=
  match s with
  | EmptyString => false
  | String _ _ => true
  end.

(** Truthiness of a number: 0 is falsy. *)
Definition truthy_number (n : Z) : bool := negb (Z.eqb n 0).

(** Truthiness of an optional boolean, as in [if (props.enableLogging)]. *)
Definition truthy_opt_bool (a : option bool) : bool :=
  match a with
  | Some b => b
  | None => false
  end.

(** [a || b] where [a] is an optional string. *)
Definition or_string (a : option string) (b : string) : string :=
  match a with
  | Some s => if truthy_string s then s else b
  | None => b
  end.

(** An optional string seen through its truthiness: [None] when it is
    [undefined] or empty. *)
Definition nonEmpty_string (a : option string) : option string :=
  match a with
  | Some s => if truthy_string s then Some s else None
  | None => None
  end.

(** [a || b] where [a] is an optional number. *)
Definition or_number (a : option Z) (b : Z) : Z :=
  match a with
  | Some n => if truthy_number n then n else b
  | None => b
  end.

(** [a || b] where [a] is an optional object, array or enum member:
    every defined value is truthy. *)
Definition or_object {A : Type} (a : option A) (b : A) : A :=
  match a with
  | Some x => x
  | None => b
  end.

(** [a?.f]: optional chaining into an optional property. *)
Definition chain {A B : Type} (a : option A) (f : A -> option B) : option B :=
  match a with
  | Some x => f x
  | None => None
  end.

(** [s.split(sep)] for a separator of one character. *)
Fixpoint split (sep : ascii) (s : string) : list string :=
  match s with
  | EmptyString => [EmptyString]
  | String c s' =>
      if Ascii.eqb c sep then EmptyString :: split sep s'
      else match split sep s' with
           | [] => [String c EmptyString]
           | part :: parts => String c part :: parts
           end
  end.

(** [l.join(sep)]. *)
Definition join (sep : string) (l : list string) : string :=
  String.concat sep l.

(** [l.slice(-n)]: the last [n] elements, all of them when there are
    fewer. *)
Definition slice_last {A : Type} (n : nat) (l : list A) : list A :=
  skipn (length l - n) l.

(** A list of strings without repetition, decided. *)
Fixpoint distinct (l : list string) : bool :=
  match l with
  | [] => true
  | x :: rest => negb (existsb (String.eqb x) rest) && distinct rest
  end.

(** A plain object used as a map: its own properties in enumeration
    order. The keys of an object are distinct ([wf]). *)
Definition Object (V : Type) : Type := list (string * V).

Definition keys {V : Type} (o : Object V) : list string := map fst o.

Definition entries {V : Type} (o : Object V) : list (string * V) := o.

Definition wf {V : Type} (o : Object V) : Prop := NoDup (keys o).

(** The own property [k] of [o]: [None] when the object has no property
    of that name of its own. *)
Fixpoint get {V : Type} (o : Object V) (k : string) : option V :=
  match o with
  | [] => None
  | (k', v) :: rest => if String.eqb k k' then Some v else get rest k
  end.

(** [o[k] = v] for a key other than [__proto__]: an existing property
    keeps its place, a new one is added last. *)
Fixpoint set {V : Type} (o : Object V) (k : string) (v : V) : Object V :=
  match o with
  | [] => [(k, v)]
  | (k', v') :: rest =>
      if String.eqb k k' then (k', v) :: rest else (k', v') :: set rest k v
  end.

(** A label: a string without the separator. *)
Fixpoint isLabel (sep : ascii) (s : string) : bool :=
  match s with
  | EmptyString => true
  | String c s' => negb (Ascii.eqb c sep) && isLabel sep s'
  end.

(** [c.toUpperCase()] on one code unit of the ASCII range: a letter from
    a to z becomes the capital letter, every other one is kept. *)
Definition toUpperCase_ascii (c : ascii) : ascii :=
  let n := nat_of_ascii c in
  if andb (Nat.leb 97 n) (Nat.leb n 122) then ascii_of_nat (n - 32) else c.

(** The names of the properties every plain object inherits from
    [Object.prototype]. *)
Definition objectPrototypeNames : list string :=
  [ "constructor"; "__defineGetter__"; "__defineSetter__"; "hasOwnProperty";
    "__lookupGetter__"; "__lookupSetter__"; "isPrototypeOf";
    "propertyIsEnumerable"; "toString"; "valueOf"; "__proto__";
    "toLocaleString" ].

Definition inherits (k : string) : bool :=
  existsb (String.eqb k) objectPrototypeNames.

(** What [o[k]] reads on a plain object: the own property, else the
    property of that name inherited from [Object.prototype] (a function,
    or the prototype itself for [__proto__]), else [undefined]. *)
Inductive Read (V : Type) : Type :=
| Own (v : V)
| Inherited (name : string)
| Undefined.

Arguments Own {V} v.
Arguments Inherited {V} name.
Arguments Undefined {V}.

Definition read {V : Type} (o : Object V) (k : string) : Read V :=
  match get o k with
  | Some v => Own v
  | None => if inherits k then Inherited k else Undefined
  end.

(** [a || d] in words: [r] is [a] when [a] is a non-empty string, and [d]
    when [a] is left out or empty. *)
Definition defaultsTo (a : option string) (d r : string) : Prop :=
  (a = Some r /\ r <> "") \/ ((a = None \/ a = Some "") /\ r = d).

End JS.

(** ** The construct scope shared by both constructs *)

Module Scope.

(** Attributes a construct generates when it is synthesized. *)
Inductive Attr : Type :=
| BucketArn | BucketName | CertificateArn | AttrArn
| DistributionId | DistributionDomainName | ParameterArn.

(** A piece of a string value: literal text, or the token of an attribute
    of the construct with the given id. *)
Inductive Piece : Type :=
| Lit (text : string)
| Token (constructId : string) (attr : Attr).

(** A string that may embed tokens, as a template literal builds it. *)
Definition Value : Type := list Piece.

(** A handle on a declared construct: its id in the scope. *)
Definition Handle : Type := string.

(** The scope: children in declaration order. *)
Definition t (R : Type) : Type := list (string * R).

(** A computation that declares constructs in the scope. *)
Definition M (R A : Type) : Type := t R -> A * t R.

Definition ret {R A : Type} (a : A) : M R A := fun s => (a, s).

Definition bind {R A B : Type} (m : M R A) (k : A -> M R B) : M R B :=
  fun s => let (a, s') := m s in k a s'.

(** [new X(this, id, props)]: the construct is added to the scope and a
    handle on it is returned. *)
Definition declare {R : Type} (id : string) (r : R) : M R Handle :=
  fun s => (id, s ++ [(id, r)]).

(** [l.map(f)] where [f] may declare constructs; elements are visited
    from left to right. *)
Fixpoint mapM {R A B : Type} (f : A -> M R B) (l : list A) : M R (list B) :=
  match l with
  | [] => ret []
  | x :: xs =>
      bind (f x) (fun y =>
      bind (mapM f xs) (fun ys =>
      ret (y :: ys)))
  end.

(** What a computation returns and what it declares when it starts from
    the empty scope. *)
Definition result {R A : Type} (m : M R A) : A := fst (m []).

Definition emitted {R A : Type} (m : M R A) : t R := snd (m []).

(** A computation is framed when it only adds to the scope it is given
    and neither its result nor what it adds depends on that scope. *)
Definition framed {R A : Type} (m : M R A) : Prop :=
  forall s, m s = (result m, s ++ emitted m).

(** The id a construct takes in its scope: the construct library
    replaces every path separator '/' of the id it is given by '--'. *)
Fixpoint sanitizeId (id : string) : string :=
  match id with
  | EmptyString => EmptyString
  | String c rest =>
      if Ascii.eqb c "/" then String "-" (String "-" (sanitizeId rest))
      else String c (sanitizeId rest)
  end.

(** The child declared under an id (the first one). *)
Fixpoint findChild {R : Type} (id : string) (s : t R) : option R :=
  match s with
  | [] => None
  | (id', r) :: rest => if String.eqb id id' then Some r else findChild id rest
  end.

End Scope.

Declare Scope scope_monad_scope.
Delimit Scope scope_monad_scope with scope_monad.
Notation "x <- m ;; k" := (Scope.bind m (fun x => k))
  (at level 61, m at next level, right associativity) : scope_monad_scope.
Notation "m ;;; k" := (Scope.bind m (fun _ => k))
  (at level 61, right associativity) : scope_monad_scope.

(** ** SecureWebsite (spa-construct/lib/constructs) *)

Module Website.

Import Scope.

(** *** Enumerations of the construct library used by the source.
    Every member is a non-empty string or an object, hence truthy. *)

Inductive RemovalPolicy : Type :=
| DESTROY | RETAIN | SNAPSHOT | RETAIN_ON_UPDATE_OR_DELETE.

Inductive PriceClass : Type :=
| PRICE_CLASS_100 | PRICE_CLASS_200 | PRICE_CLASS_ALL.

Inductive BlockPublicAccess : Type := BLOCK_ALL | BLOCK_ACLS.

Inductive BucketEncryption : Type := S3_MANAGED | KMS_MANAGED | UNENCRYPTED.

Inductive ViewerProtocolPolicy : Type :=
| REDIRECT_TO_HTTPS | HTTPS_ONLY | VIEWER_ALLOW_ALL.

Inductive AllowedMethods : Type :=
| ALLOW_GET_HEAD | ALLOW_GET_HEAD_OPTIONS | ALLOW_ALL.

Inductive CachedMethods : Type := CACHE_GET_HEAD | CACHE_GET_HEAD_OPTIONS.

Inductive CachePolicy : Type := CACHING_OPTIMIZED | CACHING_DISABLED.

Inductive OriginRequestPolicy : Type := CORS_S3_ORIGIN.

Inductive ResponseHeadersPolicy : Type := SECURITY_HEADERS.

Inductive Effect : Type := EFFECT_ALLOW | EFFECT_DENY.

Inductive Duration : Type :=
| days (amount : Z)
| minutes (amount : Z).

(** *** The input: SecureWebsiteProps and WafRule *)

Record WafRuleConfiguration : Type := {
  limit : option Z;
  countryCodes : option (list string);
  cfg_name : option string;
  ipAddresses : option (list string)
}.

(** [action] and [ruleType] are kept as the strings they are at run time:
    both switches of the translator have a default branch. *)
Record WafRule : Type := {
  name : string;
  priority : Z;
  action : string;
  ruleType : string;
  configuration : option WafRuleConfiguration
}.

Record SecureWebsiteProps : Type := {
  domainName : string;
  account : option string;
  hostedZoneId : option string;
  bucketName : option string;
  distributionComment : option string;
  errorDocument : option string;
  indexDocument : option string;
  enableWaf : option bool;
  wafRules : option (list WafRule);
  codeSourcePath : option string;
  priceClass : option PriceClass;
  removalPolicy : option RemovalPolicy;
  subjectAlternativeNames : option (list string);
  enableLogging : option bool;
  logsBucketName : option string
}.

(** *** The declarations the construct emits *)

Inductive HostedZoneSource : Type :=
| fromHostedZoneId (zoneId : string)
| fromLookup (zoneDomainName : string).

Inductive CertificateValidation : Type :=
| fromDns (zone : Handle).

Record CertificateProps : Type := {
  cert_domainName : string;
  cert_subjectAlternativeNames : option (list string);
  cert_validation : CertificateValidation
}.

Record LifecycleRule : Type := {
  lr_id : string;
  lr_enabled : bool;
  lr_expiration : Duration
}.

Record BucketProps : Type := {
  b_bucketName : option string;
  b_publicReadAccess : bool;
  b_blockPublicAccess : BlockPublicAccess;
  b_removalPolicy : RemovalPolicy;
  b_autoDeleteObjects : bool;
  b_versioned : option bool;
  b_encryption : option BucketEncryption;
  b_lifecycleRules : option (list LifecycleRule)
}.

Record CfnIPSetProps : Type := {
  ips_scope : string;
  ips_ipAddressVersion : string;
  ips_addresses : list string
}.

(** [{ allow: {} }], [{ block: {} }], [{ count: {} }]. *)
Inductive WafAction : Type := allow | block | count.

Inductive Statement : Type :=
| rateBasedStatement (ceiling : Z) (aggregateKeyType : string)
| managedRuleGroupStatement (vendorName groupName : string)
| geoMatchStatement (codes : list string)
| ipSetReferenceStatement (arn : Value).

Record VisibilityConfig : Type := {
  sampledRequestsEnabled : bool;
  cloudWatchMetricsEnabled : bool;
  metricName : string
}.

Record RuleProperty : Type := {
  rp_name : string;
  rp_priority : Z;
  rp_action : WafAction;
  rp_statement : Statement;
  rp_visibilityConfig : VisibilityConfig
}.

Record CfnWebACLProps : Type := {
  acl_scope : string;
  acl_defaultAction : WafAction;
  acl_rules : list RuleProperty;
  acl_visibilityConfig : VisibilityConfig
}.

Inductive Origin : Type :=
| S3BucketOrigin_withOriginAccessControl (bucket originAccessControl : Handle).

Record BehaviorOptions : Type := {
  bh_origin : Origin;
  bh_viewerProtocolPolicy : ViewerProtocolPolicy;
  bh_allowedMethods : AllowedMethods;
  bh_cachedMethods : option CachedMethods;
  bh_compress : option bool;
  bh_cachePolicy : CachePolicy;
  bh_originRequestPolicy : option OriginRequestPolicy;
  bh_responseHeadersPolicy : option ResponseHeadersPolicy
}.

Record ErrorResponse : Type := {
  httpStatus : Z;
  responseHttpStatus : Z;
  responsePagePath : string;
  ttl : Duration
}.

Record DistributionProps : Type := {
  d_defaultBehavior : BehaviorOptions;
  d_additionalBehaviors : list (string * BehaviorOptions);
  d_domainNames : list string;
  d_certificate : Handle;
  d_defaultRootObject : string;
  d_errorResponses : list ErrorResponse;
  d_priceClass : PriceClass;
  d_comment : string;
  d_webAclId : option Value;
  d_enableLogging : option bool;
  d_logBucket : option Handle;
  d_logFilePrefix : string;
  d_logIncludesCookies : bool
}.

Inductive Principal : Type :=
| ServicePrincipal (service : string).

Record PolicyStatement : Type := {
  ps_effect : Effect;
  ps_principals : list Principal;
  ps_actions : list string;
  ps_resources : list Value;
  ps_conditions : list (string * list (string * Value))
}.

Inductive AliasTarget : Type :=
| CloudFrontTarget (distribution : Handle).

Inductive RecordTarget : Type :=
| fromAlias (target : AliasTarget).

Record RecordProps : Type := {
  r_zone : Handle;
  r_recordName : string;
  r_target : RecordTarget
}.

Inductive Source : Type :=
| asset (path : string).

Record BucketDeploymentProps : Type := {
  bd_sources : list Source;
  bd_destinationBucket : Handle;
  bd_distribution : Handle;
  bd_distributionPaths : list string;
  bd_prune : bool;
  bd_retainOnDelete : bool
}.

Record CfnOutputProps : Type := {
  out_value : Value;
  out_description : string
}.

(** One declared construct. *)
Inductive Resource : Type :=
| HostedZone (source : HostedZoneSource)
| Certificate (p : CertificateProps)
| Bucket (p : BucketProps)
| S3OriginAccessControl (description : string)
| CfnIPSet (p : CfnIPSetProps)
| CfnWebACL (p : CfnWebACLProps)
| Distribution (p : DistributionProps)
| BucketPolicy (ofBucket : Handle) (statement : PolicyStatement)
| ARecord (p : RecordProps)
| AaaaRecord (p : RecordProps)
| BucketDeployment (p : BucketDeploymentProps)
| CfnOutput (p : CfnOutputProps).

(** The resource graph of one construct. *)
Definition Graph : Type := Scope.t Resource.

(** *** The class: its fields and methods *)

Record SecureWebsite : Type := {
  bucket : Handle;
  logsBucket : option Handle;
  certificate : Handle;
  webAcl : option Handle;
  distribution : Handle;
  hostedZone : Handle;
  aRecord : Handle;
  aaaaRecord : Handle;
  deployment : option Handle;
  this_account : string
}.

Local Open Scope scope_monad_scope.

(** [createWafAction]: a switch on the action string with a default. *)
Definition createWafAction (action : string) : WafAction :=
  if String.eqb action "ALLOW" then allow
  else if String.eqb action "BLOCK" then block
  else if String.eqb action "COUNT" then count
  else allow.

(** [createWafStatement]: a switch on the rule type; the IP_SET branch
    declares an address set named after the rule. *)
Definition createWafStatement (rule : WafRule) : M Resource Statement :=
  if String.eqb (ruleType rule) "RATE_LIMIT" then
    ret (rateBasedStatement
           (JS.or_number (JS.chain (configuration rule) limit) 2000) "IP")
  else if String.eqb (ruleType rule) "MANAGED_RULE" then
    ret (managedRuleGroupStatement "AWS"
           (JS.or_string (JS.chain (configuration rule) cfg_name)
              "AWSManagedRulesCommonRuleSet"))
  else if String.eqb (ruleType rule) "GEO_BLOCK" then
    ret (geoMatchStatement
           (JS.or_object (JS.chain (configuration rule) countryCodes)
              ["CN"; "RU"]))
  else if String.eqb (ruleType rule) "IP_SET" then
    ipSet <- declare ("IPSet-" ++ name rule)
               (CfnIPSet {|
                  ips_scope := "CLOUDFRONT";
                  ips_ipAddressVersion := "IPV4";
                  ips_addresses :=
                    JS.or_object (JS.chain (configuration rule) ipAddresses) []
                |}) ;;
    ret (ipSetReferenceStatement [Token ipSet AttrArn])
  else
    ret (managedRuleGroupStatement "AWS" "AWSManagedRulesCommonRuleSet").

(** [createWebAcl]: one rule property per rule, then the web ACL. *)
Definition createWebAcl (rules : list WafRule) : M Resource Handle :=
  wafRules' <- mapM (fun rule =>
                 let a := createWafAction (action rule) in
                 st <- createWafStatement rule ;;
                 ret {| rp_name := name rule;
                        rp_priority := priority rule;
                        rp_action := a;
                        rp_statement := st;
                        rp_visibilityConfig := {|
                          sampledRequestsEnabled := true;
                          cloudWatchMetricsEnabled := true;
                          metricName := name rule |} |}) rules ;;
  declare "WebACL"
    (CfnWebACL {|
       acl_scope := "CLOUDFRONT";
       acl_defaultAction := allow;
       acl_rules := wafRules';
       acl_visibilityConfig := {|
         sampledRequestsEnabled := true;
         cloudWatchMetricsEnabled := true;
         metricName := "SecureWebsiteWAF" |} |}).

Definition getDefaultWafRules : list WafRule :=
  [ {| name := "AWSManagedRulesCommonRuleSet";
       priority := 1;
       action := "BLOCK";
       ruleType := "MANAGED_RULE";
       configuration := Some {| limit := None; countryCodes := None;
                                cfg_name := Some "AWSManagedRulesCommonRuleSet";
                                ipAddresses := None |} |};
    {| name := "AWSManagedRulesKnownBadInputsRuleSet";
       priority := 2;
       action := "BLOCK";
       ruleType := "MANAGED_RULE";
       configuration := Some {| limit := None; countryCodes := None;
                                cfg_name := Some "AWSManagedRulesKnownBadInputsRuleSet";
                                ipAddresses := None |} |};
    {| name := "AWSManagedRulesLinuxRuleSet";
       priority := 3;
       action := "BLOCK";
       ruleType := "MANAGED_RULE";
       configuration := Some {| limit := None; countryCodes := None;
                                cfg_name := Some "AWSManagedRulesLinuxRuleSet";
                                ipAddresses := None |} |};
    {| name := "RateLimitRule";
       priority := 10;
       action := "BLOCK";
       ruleType := "RATE_LIMIT";
       configuration := Some {| limit := Some 2000%Z; countryCodes := None;
                                cfg_name := None;
                                ipAddresses := None |} |} ].

(** [getApexDomain]. *)
Definition getApexDomain (domain : string) : string :=
  let parts := JS.split "." domain in
  if Nat.leb 2 (length parts) then JS.join "." (JS.slice_last 2 parts)
  else domain.

(** [createOutputs]: four outputs always, two more when the web ACL and
    the logs bucket exist. *)
Definition createOutputs (this : SecureWebsite) (props : SecureWebsiteProps)
  : M Resource unit :=
  declare "WebsiteUrl"
    (CfnOutput {| out_value := [Lit ("https://" ++ domainName props)];
                  out_description := "Website URL" |}) ;;;
  declare "BucketName"
    (CfnOutput {| out_value := [Token (bucket this) BucketName];
                  out_description := "S3 bucket name for website content" |}) ;;;
  declare "DistributionId"
    (CfnOutput {| out_value := [Token (distribution this) DistributionId];
                  out_description := "CloudFront distribution ID" |}) ;;;
  declare "CertificateArn"
    (CfnOutput {| out_value := [Token (certificate this) CertificateArn];
                  out_description := "ACM certificate ARN" |}) ;;;
  match webAcl this with
  | Some acl =>
      declare "WebAclArn"
        (CfnOutput {| out_value := [Token acl AttrArn];
                      out_description := "WAF WebACL ARN" |}) ;;; ret tt
  | None => ret tt
  end ;;;
  match logsBucket this with
  | Some logs =>
      declare "LogsBucketName"
        (CfnOutput {| out_value := [Token logs BucketName];
                      out_description := "CloudFront logs bucket name" |}) ;;;
      ret tt
  | None => ret tt
  end.

(** [props.removalPolicy === RemovalPolicy.DESTROY]. *)
Definition is_DESTROY (p : option RemovalPolicy) : bool :=
  match p with
  | Some DESTROY => true
  | _ => false
  end.

(** [props.enableWaf !== false]. *)
Definition not_false (b : option bool) : bool :=
  match b with
  | Some false => false
  | _ => true
  end.

(** The error response of the distribution for one status. *)
Definition errorResponse (status : Z) (props : SecureWebsiteProps) : ErrorResponse :=
  {| httpStatus := status;
     responseHttpStatus := 200;
     responsePagePath := "/" ++ JS.or_string (indexDocument props) "index.html";
     ttl := minutes 5 |}.

(** The constructor, one definition for each of its commented blocks. *)

(* Get or create hosted zone *)
Definition getHostedZone (props : SecureWebsiteProps) : M Resource Handle :=
  let lookup :=
    declare "HostedZone"
      (HostedZone (fromLookup (getApexDomain (domainName props)))) in
  match hostedZoneId props with
  | Some zoneId =>
      if JS.truthy_string zoneId
      then declare "HostedZone" (HostedZone (fromHostedZoneId zoneId))
      else lookup
  | None => lookup
  end.

(* Create ACM certificate *)
Definition createCertificate (props : SecureWebsiteProps) (hostedZone' : Handle)
  : M Resource Handle :=
  declare "Certificate"
    (Certificate {|
       cert_domainName := domainName props;
       cert_subjectAlternativeNames := subjectAlternativeNames props;
       cert_validation := fromDns hostedZone' |}).

(* Create S3 bucket for website content *)
Definition createWebsiteBucket (props : SecureWebsiteProps) : M Resource Handle :=
  declare "WebsiteBucket"
    (Bucket {|
       b_bucketName := bucketName props;
       b_publicReadAccess := false;
       b_blockPublicAccess := BLOCK_ALL;
       b_removalPolicy := JS.or_object (removalPolicy props) DESTROY;
       b_autoDeleteObjects := is_DESTROY (removalPolicy props);
       b_versioned := Some true;
       b_encryption := Some S3_MANAGED;
       b_lifecycleRules := None |}).

(* Create logs bucket if logging is enabled *)
Definition createLogsBucket (props : SecureWebsiteProps)
  : M Resource (option Handle) :=
  if JS.truthy_opt_bool (enableLogging props)
  then
    h <- declare "LogsBucket"
           (Bucket {|
              b_bucketName := logsBucketName props;
              b_publicReadAccess := false;
              b_blockPublicAccess := BLOCK_ALL;
              b_removalPolicy := JS.or_object (removalPolicy props) DESTROY;
              b_autoDeleteObjects := is_DESTROY (removalPolicy props);
              b_versioned := None;
              b_encryption := None;
              b_lifecycleRules :=
                Some [ {| lr_id := "DeleteOldLogs";
                          lr_enabled := true;
                          lr_expiration := days 90 |} ] |}) ;;
    ret (Some h)
  else ret None.

(* Create Origin Access Control *)
Definition createOriginAccessControl (props : SecureWebsiteProps)
  : M Resource Handle :=
  declare "OAC" (S3OriginAccessControl ("OAC for " ++ domainName props)).

(* Create WAF WebACL if enabled *)
Definition createFirewall (props : SecureWebsiteProps)
  : M Resource (option Handle) :=
  if not_false (enableWaf props)
  then
    h <- createWebAcl (JS.or_object (wafRules props) getDefaultWafRules) ;;
    ret (Some h)
  else ret None.

(* Create CloudFront distribution *)
Definition createDistribution (props : SecureWebsiteProps)
    (bucket' originAccessControl certificate' : Handle)
    (webAcl' logsBucket' : option Handle) : M Resource Handle :=
  declare "Distribution"
    (Distribution {|
       d_defaultBehavior := {|
         bh_origin := S3BucketOrigin_withOriginAccessControl bucket' originAccessControl;
         bh_viewerProtocolPolicy := REDIRECT_TO_HTTPS;
         bh_allowedMethods := ALLOW_GET_HEAD_OPTIONS;
         bh_cachedMethods := Some CACHE_GET_HEAD_OPTIONS;
         bh_compress := Some true;
         bh_cachePolicy := CACHING_OPTIMIZED;
         bh_originRequestPolicy := Some CORS_S3_ORIGIN;
         bh_responseHeadersPolicy := Some SECURITY_HEADERS |};
       d_additionalBehaviors :=
         [ ("/api/*",
            {| bh_origin := S3BucketOrigin_withOriginAccessControl bucket' originAccessControl;
               bh_viewerProtocolPolicy := REDIRECT_TO_HTTPS;
               bh_allowedMethods := ALLOW_ALL;
               bh_cachedMethods := None;
               bh_compress := None;
               bh_cachePolicy := CACHING_DISABLED;
               bh_originRequestPolicy := None;
               bh_responseHeadersPolicy := None |}) ];
       d_domainNames :=
         domainName props :: JS.or_object (subjectAlternativeNames props) [];
       d_certificate := certificate';
       d_defaultRootObject := JS.or_string (indexDocument props) "index.html";
       d_errorResponses := [ errorResponse 403 props; errorResponse 404 props ];
       d_priceClass := JS.or_object (priceClass props) PRICE_CLASS_100;
       d_comment :=
         JS.or_string (distributionComment props)
           ("Secure website for " ++ domainName props);
       d_webAclId := option_map (fun acl => [Token acl AttrArn]) webAcl';
       d_enableLogging := enableLogging props;
       d_logBucket := logsBucket';
       d_logFilePrefix := "cloudfront-logs/";
       d_logIncludesCookies := true |}).

(* Grant CloudFront access to S3 bucket *)
Definition grantDistributionAccess (account' : string)
    (bucket' distribution' : Handle) : M Resource Handle :=
  declare "WebsiteBucket/Policy"
    (BucketPolicy bucket' {|
       ps_effect := EFFECT_ALLOW;
       ps_principals := [ServicePrincipal "cloudfront.amazonaws.com"];
       ps_actions := ["s3:GetObject"];
       ps_resources := [[Token bucket' BucketArn; Lit "/*"]];
       ps_conditions :=
         [ ("StringEquals",
            [ ("AWS:SourceArn",
               [ Lit ("arn:aws:cloudfront::" ++ account' ++ ":distribution/");
                 Token distribution' DistributionId ]) ]) ] |}).

(* Create Route53 records *)
Definition createARecord (props : SecureWebsiteProps)
    (hostedZone' distribution' : Handle) : M Resource Handle :=
  declare "ARecord"
    (ARecord {| r_zone := hostedZone';
                r_recordName := domainName props;
                r_target := fromAlias (CloudFrontTarget distribution') |}).

Definition createAaaaRecord (props : SecureWebsiteProps)
    (hostedZone' distribution' : Handle) : M Resource Handle :=
  declare "AaaaRecord"
    (AaaaRecord {| r_zone := hostedZone';
                   r_recordName := domainName props;
                   r_target := fromAlias (CloudFrontTarget distribution') |}).

(* Deploy website content if source path provided *)
Definition deployContent (props : SecureWebsiteProps)
    (bucket' distribution' : Handle) : M Resource (option Handle) :=
  match codeSourcePath props with
  | Some sourcePath =>
      if JS.truthy_string sourcePath
      then
        h <- declare "WebsiteDeployment"
               (BucketDeployment {|
                  bd_sources := [asset sourcePath];
                  bd_destinationBucket := bucket';
                  bd_distribution := distribution';
                  bd_distributionPaths := ["/*"];
                  bd_prune := true;
                  bd_retainOnDelete := false |}) ;;
        ret (Some h)
      else ret None
  | None => ret None
  end.

Definition constructor (props : SecureWebsiteProps) : M Resource SecureWebsite :=
  let account' := JS.or_string (account props) "*" in
  hostedZone' <- getHostedZone props ;;
  certificate' <- createCertificate props hostedZone' ;;
  bucket' <- createWebsiteBucket props ;;
  logsBucket' <- createLogsBucket props ;;
  originAccessControl <- createOriginAccessControl props ;;
  webAcl' <- createFirewall props ;;
  distribution' <-
    createDistribution props bucket' originAccessControl certificate'
      webAcl' logsBucket' ;;
  grantDistributionAccess account' bucket' distribution' ;;;
  aRecord' <- createARecord props hostedZone' distribution' ;;
  aaaaRecord' <- createAaaaRecord props hostedZone' distribution' ;;
  deployment' <- deployContent props bucket' distribution' ;;
  let this := {| bucket := bucket';
                 logsBucket := logsBucket';
                 certificate := certificate';
                 webAcl := webAcl';
                 distribution := distribution';
                 hostedZone := hostedZone';
                 aRecord := aRecord';
                 aaaaRecord := aaaaRecord';
                 deployment := deployment';
                 this_account := account' |} in
  (* Create outputs *)
  createOutputs this props ;;;
  ret this.

(** [new SecureWebsite(scope, id, props)]: the object and the graph of the
    constructs declared in it. *)
Definition new_SecureWebsite (props : SecureWebsiteProps) : SecureWebsite * Graph :=
  constructor props [].

Definition graph (props : SecureWebsiteProps) : Graph :=
  snd (new_SecureWebsite props).

Definition object (props : SecureWebsiteProps) : SecureWebsite :=
  fst (new_SecureWebsite props).

(** The object in closed form: every handle is the id the construct was
    declared under. *)
Definition thisOf (props : SecureWebsiteProps) : SecureWebsite :=
  {| bucket := "WebsiteBucket";
     logsBucket := result (createLogsBucket props);
     certificate := "Certificate";
     webAcl := result (createFirewall props);
     distribution := "Distribution";
     hostedZone := "HostedZone";
     aRecord := "ARecord";
     aaaaRecord := "AaaaRecord";
     deployment := result (deployContent props "WebsiteBucket" "Distribution");
     this_account := JS.or_string (account props) "*" |}.

(** [addWafRule]: throws when no web ACL was built, otherwise only warns. *)
Definition addWafRule (this : SecureWebsite) (rule : WafRule) : string + unit :=
  match webAcl this with
  | None => inl "WAF is not enabled for this construct"
  | Some _ => inr tt
  end.

(** *** The translator without its scope

    The statement [createWafStatement] returns does not depend on the
    scope it runs in, and it only adds to that scope. *)

Definition statementOf (rule : WafRule) : Statement :=
  fst (createWafStatement rule []).

Definition ipSetsOf (rule : WafRule) : Graph :=
  snd (createWafStatement rule []).

Definition rulePropertyOf (rule : WafRule) : RuleProperty :=
  {| rp_name := name rule;
     rp_priority := priority rule;
     rp_action := createWafAction (action rule);
     rp_statement := statementOf rule;
     rp_visibilityConfig := {|
       sampledRequestsEnabled := true;
       cloudWatchMetricsEnabled := true;
       metricName := name rule |} |}.

(** The web ACL [createWebAcl] declares for a list of rules. *)
Definition webAclProps (rules : list WafRule) : CfnWebACLProps :=
  {| acl_scope := "CLOUDFRONT";
     acl_defaultAction := allow;
     acl_rules := map rulePropertyOf rules;
     acl_visibilityConfig := {|
       sampledRequestsEnabled := true;
       cloudWatchMetricsEnabled := true;
       metricName := "SecureWebsiteWAF" |} |}.

(** *** Readers of the graph used to state the properties *)

(** The properties of the bucket declared under an id. *)
Definition bucketOf (id : string) (g : Graph) : option BucketProps :=
  match findChild id g with
  | Some (Bucket p) => Some p
  | _ => None
  end.

(** The properties of the web ACL declared under an id. *)
Definition webAclOf (id : string) (g : Graph) : option CfnWebACLProps :=
  match findChild id g with
  | Some (CfnWebACL p) => Some p
  | _ => None
  end.

(** The properties of the distribution declared under an id. *)
Definition distributionOf (id : string) (g : Graph) : option DistributionProps :=
  match findChild id g with
  | Some (Distribution p) => Some p
  | _ => None
  end.

(** The hosted zone declared under an id. *)
Definition hostedZoneOf (id : string) (g : Graph) : option HostedZoneSource :=
  match findChild id g with
  | Some (HostedZone z) => Some z
  | _ => None
  end.

Definition isFirewall (r : Resource) : bool :=
  match r with
  | CfnWebACL _ | CfnIPSet _ => true
  | _ => false
  end.

(** The output projection: the outputs of the graph, in order. *)
Definition outputs (g : Graph) : list (string * CfnOutputProps) :=
  flat_map (fun c => match snd c with
                     | CfnOutput p => [(fst c, p)]
                     | _ => []
                     end) g.

(** The ids [createOutputs] may declare. *)
Definition outputIds : list string :=
  ["WebsiteUrl"; "BucketName"; "DistributionId"; "CertificateArn";
   "WebAclArn"; "LogsBucketName"].

(** A value refers to a construct when one of its tokens names it. *)
Definition refersTo (id : string) (v : Value) : bool :=
  existsb (fun piece => match piece with
                        | Token c _ => String.eqb c id
                        | Lit _ => false
                        end) v.

(** [props] with its [errorDocument] replaced. *)
Definition with_errorDocument (e : option string) (props : SecureWebsiteProps)
  : SecureWebsiteProps :=
  {| domainName := domainName props;
     account := account props;
     hostedZoneId := hostedZoneId props;
     bucketName := bucketName props;
     distributionComment := distributionComment props;
     errorDocument := e;
     indexDocument := indexDocument props;
     enableWaf := enableWaf props;
     wafRules := wafRules props;
     codeSourcePath := codeSourcePath props;
     priceClass := priceClass props;
     removalPolicy := removalPolicy props;
     subjectAlternativeNames := subjectAlternativeNames props;
     enableLogging := enableLogging props;
     logsBucketName := logsBucketName props |}.

(** The props of [SimpleWebsiteStack] and [AdvancedWebsiteStack]. *)
Definition simpleWebsiteProps : SecureWebsiteProps :=
  {| domainName := "mysite.example.com";
     account := None; hostedZoneId := None; bucketName := None;
     distributionComment := None; errorDocument := None;
     indexDocument := None; enableWaf := None; wafRules := None;
     codeSourcePath := None; priceClass := None; removalPolicy := None;
     subjectAlternativeNames := None; enableLogging := None;
     logsBucketName := None |}.

(** The simple website with the firewall turned off. *)
Definition noFirewallProps : SecureWebsiteProps :=
  {| domainName := "mysite.example.com";
     account := None; hostedZoneId := None; bucketName := None;
     distributionComment := None; errorDocument := None;
     indexDocument := None; enableWaf := Some false; wafRules := None;
     codeSourcePath := None; priceClass := None; removalPolicy := None;
     subjectAlternativeNames := None; enableLogging := None;
     logsBucketName := None |}.

(** A rate limit rule, with the limit of the advanced example and with
    limit 0. *)
Definition rateLimitRule (n : Z) : WafRule :=
  {| name := "CustomRateLimit"; priority := 1; action := "BLOCK";
     ruleType := "RATE_LIMIT";
     configuration := Some {| limit := Some n; countryCodes := None;
                              cfg_name := None; ipAddresses := None |} |}.

Definition advancedWebsiteProps : SecureWebsiteProps :=
  {| domainName := "myadvancedsite.example.com";
     account := None;
     hostedZoneId := Some "Z1234567890123";
     bucketName := Some "my-custom-bucket-name";
     distributionComment := Some "My advanced website distribution";
     errorDocument := Some "404.html";
     indexDocument := Some "index.html";
     enableWaf := Some true;
     wafRules := Some
       [ {| name := "CustomRateLimit"; priority := 1; action := "BLOCK";
            ruleType := "RATE_LIMIT";
            configuration := Some {| limit := Some 500%Z; countryCodes := None;
                                     cfg_name := None; ipAddresses := None |} |};
         {| name := "BlockSpecificCountries"; priority := 2; action := "BLOCK";
            ruleType := "GEO_BLOCK";
            configuration := Some {| limit := None;
                                     countryCodes := Some ["XX"; "YY"];
                                     cfg_name := None; ipAddresses := None |} |} ];
     codeSourcePath := Some "./src/website";
     priceClass := Some PRICE_CLASS_ALL;
     removalPolicy := Some RETAIN;
     subjectAlternativeNames := Some ["www.myadvancedsite.example.com"];
     enableLogging := Some true;
     logsBucketName := Some "my-cloudfront-logs" |}.

(** *** Further readers of the graph *)

(** The construct ids of a graph, in declaration order. *)
Definition ids (g : Graph) : list string := map fst g.

(** The rules for which [createWafStatement] takes the IP_SET branch. *)
Definition isIpSetRule (rule : WafRule) : bool :=
  String.eqb (ruleType rule) "IP_SET".

(** The address sets of a graph, in order. *)
Definition ipSetsIn (g : Graph) : list (string * CfnIPSetProps) :=
  flat_map (fun c => match snd c with
                     | CfnIPSet p => [(fst c, p)]
                     | _ => []
                     end) g.

(** The buckets of a graph, in order. *)
Definition bucketsIn (g : Graph) : list (string * BucketProps) :=
  flat_map (fun c => match snd c with
                     | Bucket p => [(fst c, p)]
                     | _ => []
                     end) g.

(** The content deployments of a graph, in order. *)
Definition deploymentsIn (g : Graph) : list (string * BucketDeploymentProps) :=
  flat_map (fun c => match snd c with
                     | BucketDeployment p => [(fst c, p)]
                     | _ => []
                     end) g.

(** The constructs a value names through its tokens. *)
Definition valueRefs (v : Value) : list Handle :=
  flat_map (fun piece => match piece with
                         | Token c _ => [c]
                         | Lit _ => []
                         end) v.

Definition originRefs (o : Origin) : list Handle :=
  match o with
  | S3BucketOrigin_withOriginAccessControl b oac => [b; oac]
  end.

(** The constructs a declaration refers to: every handle and every token
    among its properties. *)
Definition references (r : Resource) : list Handle :=
  match r with
  | HostedZone _ => []
  | Certificate p => match cert_validation p with fromDns zone => [zone] end
  | Bucket _ => []
  | S3OriginAccessControl _ => []
  | CfnIPSet _ => []
  | CfnWebACL p =>
      flat_map (fun rp => match rp_statement rp with
                          | ipSetReferenceStatement arn => valueRefs arn
                          | _ => []
                          end) (acl_rules p)
  | Distribution p =>
      originRefs (bh_origin (d_defaultBehavior p))
      ++ flat_map (fun b => originRefs (bh_origin (snd b))) (d_additionalBehaviors p)
      ++ [d_certificate p]
      ++ match d_webAclId p with Some v => valueRefs v | None => [] end
      ++ match d_logBucket p with Some h => [h] | None => [] end
  | BucketPolicy b st =>
      b :: flat_map valueRefs (ps_resources st)
      ++ flat_map (fun c => flat_map (fun kv => valueRefs (snd kv)) (snd c))
           (ps_conditions st)
  | ARecord p | AaaaRecord p =>
      r_zone p :: match r_target p with
                  | fromAlias (CloudFrontTarget d) => [d]
                  end
  | BucketDeployment p => [bd_destinationBucket p; bd_distribution p]
  | CfnOutput p => valueRefs (out_value p)
  end.

(** Every declaration of [g] refers only to constructs in [seen] or
    declared before it in [g]. *)
Fixpoint declaredBeforeUse (seen : list string) (g : Graph) : Prop :=
  match g with
  | [] => True
  | (id, r) :: rest =>
      incl (references r) seen /\ declaredBeforeUse (seen ++ [id]) rest
  end.

(** [props] where an empty string given for a property read through [||]
    or a condition is replaced by [undefined], and [enableWaf] left unset
    is replaced by [true]. *)
Definition normalized (props : SecureWebsiteProps) : SecureWebsiteProps :=
  {| domainName := domainName props;
     account := JS.nonEmpty_string (account props);
     hostedZoneId := JS.nonEmpty_string (hostedZoneId props);
     bucketName := bucketName props;
     distributionComment := JS.nonEmpty_string (distributionComment props);
     errorDocument := errorDocument props;
     indexDocument := JS.nonEmpty_string (indexDocument props);
     enableWaf := Some (not_false (enableWaf props));
     wafRules := wafRules props;
     codeSourcePath := JS.nonEmpty_string (codeSourcePath props);
     priceClass := priceClass props;
     removalPolicy := removalPolicy props;
     subjectAlternativeNames := subjectAlternativeNames props;
     enableLogging := enableLogging props;
     logsBucketName := logsBucketName props |}.

(** The certificate, the bucket policy and the records declared under an
    id. *)
Definition certificateOf (id : string) (g : Graph) : option CertificateProps :=
  match findChild id g with
  | Some (Certificate p) => Some p
  | _ => None
  end.

Definition policyOf (id : string) (g : Graph) : option (Handle * PolicyStatement) :=
  match findChild id g with
  | Some (BucketPolicy b st) => Some (b, st)
  | _ => None
  end.

Definition recordOf (id : string) (g : Graph) : option RecordProps :=
  match findChild id g with
  | Some (ARecord p) | Some (AaaaRecord p) => Some p
  | _ => None
  end.

(** The statements the constructor adds to bucket policies through
    [addToResourcePolicy], in order; what the construct library adds to
    a policy on its own is not among them. *)
Definition policiesIn (g : Graph) : list (string * PolicyStatement) :=
  flat_map (fun c => match snd c with
                     | BucketPolicy _ st => [(fst c, st)]
                     | _ => []
                     end) g.

(** A content source is deployed when [codeSourcePath] is a non-empty
    string. *)
Definition hasSource (props : SecureWebsiteProps) : bool :=
  match codeSourcePath props with
  | Some sourcePath => JS.truthy_string sourcePath
  | None => false
  end.

(** The rules the firewall is built from. *)
Definition rulesOf (props : SecureWebsiteProps) : list WafRule :=
  JS.or_object (wafRules props) getDefaultWafRules.

(** The id of the address set of a rule. *)
Definition ipSetId (rule : WafRule) : string := "IPSet-" ++ name rule.

(** The inputs on which the construct library lets the constructor go on.

    The zone is looked up by name when [hostedZoneId] is left out or
    empty; a zone imported by its id alone has no zone name, and the
    library refuses to declare a record in it. *)
Definition zoneLookedUp (props : SecureWebsiteProps) : Prop :=
  hostedZoneId props = None \/ hostedZoneId props = Some "".

(** The address-set rules have pairwise distinct names without '/': a
    second address set under an id throws, and the library replaces every
    '/' of an id by '--'. *)
Definition ipSetNamesFree (rules : list WafRule) : Prop :=
  NoDup (map name (filter isIpSetRule rules)) /\
  Forall (fun rule => JS.isLabel "/" (name rule) = true)
    (filter isIpSetRule rules).

Definition firewallDeclarable (props : SecureWebsiteProps) : Prop :=
  enableWaf props <> Some false -> ipSetNamesFree (rulesOf props).

(** A website with one address-set rule. *)
Definition ipSetRule (ruleName : string) (addresses : list string) : WafRule :=
  {| name := ruleName; priority := 5; action := "BLOCK"; ruleType := "IP_SET";
     configuration := Some {| limit := None; countryCodes := None;
                              cfg_name := None;
                              ipAddresses := Some addresses |} |}.

Definition ipSetWebsiteProps : SecureWebsiteProps :=
  {| domainName := "mysite.example.com";
     account := None; hostedZoneId := None; bucketName := None;
     distributionComment := None; errorDocument := None;
     indexDocument := None; enableWaf := None;
     wafRules := Some [ipSetRule "Office" ["192.0.2.0/24"];
                       rateLimitRule 500];
     codeSourcePath := None; priceClass := None; removalPolicy := None;
     subjectAlternativeNames := None; enableLogging := Some true;
     logsBucketName := None |}.

End Website.

(** ** AccountConfigStack (account-config/lib/account-config-stack.ts) *)

Module AccountConfig.

(** A value of a parsed JSON document. Numbers stay abstract: the stack
    only hands them to the serializer. *)
Inductive JSON (number : Type) : Type :=
| JNull
| JBool (b : bool)
| JNumber (n : number)
| JString (s : string)
| JArray (items : list (JSON number))
| JObject (members : list (string * JSON number)).

Arguments JNull {number}.
Arguments JBool {number} b.
Arguments JNumber {number} n.
Arguments JString {number} s.
Arguments JArray {number} items.
Arguments JObject {number} members.

(** An error the construct library throws: a child is declared under an
    id its scope already holds. *)
Inductive LibraryError : Type :=
| DuplicateConstructId (id : string).

(** The outcome of a call that may throw: the value returned, an [Error]
    of the source with its message, or an error of the construct
    library. *)
Inductive Result (A : Type) : Type :=
| Ok (a : A)
| Throw (message : string)
| ThrowFromLibrary (error : LibraryError).

Arguments Ok {A} a.
Arguments Throw {A} message.
Arguments ThrowFromLibrary {A} error.

(** Sequencing of calls that may throw, and [l.forEach(f)] for an [f]
    that may throw: the first error ends the loop. *)
Definition andThen {A B : Type} (r : Result A) (k : A -> Result B) : Result B :=
  match r with
  | Ok a => k a
  | Throw message => Throw message
  | ThrowFromLibrary error => ThrowFromLibrary error
  end.

Fixpoint forEach {A S : Type} (f : S -> A -> Result S) (l : list A) (s : S)
  : Result S :=
  match l with
  | [] => Ok s
  | x :: xs => andThen (f s x) (forEach f xs)
  end.

Inductive ParameterTier : Type := STANDARD | ADVANCED | INTELLIGENT_TIERING.

Record AccountConfigStackProps : Type := {
  accountId : option string;
  contextFilePath : option string;
  parameterPrefix : option string
}.

(** The props where an empty string is replaced by [undefined]. *)
Definition normalizedProps (props : AccountConfigStackProps)
  : AccountConfigStackProps :=
  {| accountId := JS.nonEmpty_string (accountId props);
     contextFilePath := JS.nonEmpty_string (contextFilePath props);
     parameterPrefix := JS.nonEmpty_string (parameterPrefix props) |}.

(** An [ssm.StringParameter] construct. *)
Record StringParameter : Type := {
  constructId : string;
  parameterName : string;
  stringValue : string;
  description : string;
  tier : ParameterTier
}.

Record CfnOutputProps : Type := {
  out_value : Scope.Value;
  out_description : string
}.

Inductive Resource : Type :=
| SsmStringParameter (p : StringParameter)
| CfnOutput (p : CfnOutputProps).

(** [str.charAt(0).toUpperCase() + str.slice(1)], for a string whose
    first character is in the ASCII range. *)
Definition capitalizeFirst (str : string) : string :=
  match str with
  | EmptyString => EmptyString
  | String c rest => String (JS.toUpperCase_ascii c) rest
  end.

(** The ids under which the constructs of a key end up in the stack. *)
Definition parameterId (key : string) : string :=
  Scope.sanitizeId ("Parameter" ++ capitalizeFirst key).

Definition arnOutputId (key : string) : string :=
  Scope.sanitizeId (capitalizeFirst key ++ "ParameterArn").

(** The construct ids the constructor asks for, in order, for a record
    with the given keys: one parameter per key, the three fixed outputs,
    one ARN output per entry of [this.parameters] (the key [__proto__] is
    never an entry of it). *)
Definition constructIdsFor (keys : list string) : list string :=
  map parameterId keys
  ++ ["AccountId"; "ParameterPrefix"; "ConfigKeys"]
  ++ map arnOutputId
       (filter (fun key => negb (String.eqb key "__proto__")) keys).

(** The props [ssm.StringParameter] accepts without throwing: a name made
    of letters, digits and the symbols . - _ / that starts with '/' and
    has at most 2048 characters, and a description of at most 1024. *)
Definition nameChar (c : ascii) : bool :=
  let n := nat_of_ascii c in
  (Nat.leb 48 n && Nat.leb n 57) || (Nat.leb 65 n && Nat.leb n 90)
  || (Nat.leb 97 n && Nat.leb n 122)
  || Nat.eqb n 45 || Nat.eqb n 46 || Nat.eqb n 47 || Nat.eqb n 95.

Fixpoint nameChars (s : string) : bool :=
  match s with
  | EmptyString => true
  | String c rest => nameChar c && nameChars rest
  end.

Definition accepted (p : StringParameter) : bool :=
  match parameterName p with
  | String "/"%char _ => true
  | _ => false
  end
  && nameChars (parameterName p)
  && Nat.leb (String.length (parameterName p)) 2048
  && Nat.leb (String.length (description p)) 1024.

(** What [getParameter] returns: a parameter, or a property that
    [this.parameters] inherits through its prototype. *)
Inductive Looked : Type :=
| TheParameter (parameter : StringParameter)
| InheritedProperty (name : string).

Section Stack.

(** The platform the stack runs on: the number type of the JSON
    documents, [JSON.stringify], [process.cwd()], [path.join],
    [fs.readFileSync(path, 'utf8')] and [JSON.parse]. A call that
    throws returns the text of the error on the left. *)
Variable number : Type.

(** [AccountConfig]: [{ readonly [key: string]: any }]. *)
Definition AccountConfig : Type := JS.Object (JSON number).

Variable JSON_stringify : JSON number -> string.
Variable process_cwd : string.
Variable path_join : string -> string -> string.
Variable readFileSync : string -> string + string.

(** The document is read at the type the source declares for it,
    [{ [key: string]: AccountConfig }]: every record is an object. *)
Variable JSON_parse : string -> string + JS.Object AccountConfig.

(** What [this.config] holds: a record of the document or, when the
    account id is the name of a property the document inherits, that
    property of [Object.prototype]. *)
Inductive ConfigValue : Type :=
| ConfigRecord (record : AccountConfig)
| ConfigInherited (name : string).

(** [Object.entries(this.config)]: the inherited properties are functions
    or the prototype itself, none of which has an enumerable property of
    its own. *)
Definition configEntries (c : ConfigValue) : list (string * JSON number) :=
  match c with
  | ConfigRecord record => JS.entries record
  | ConfigInherited _ => []
  end.

(** A value [getConfigValue] may return: a value of the document, or the
    built-in reached from [Object.prototype] through the given property
    names. *)
Inductive Any : Type :=
| FromDocument (value : JSON number)
| FromPrototype (path : list string).

(** The fields of the stack, and the constructs declared in it.
    [this.parameters] is its own properties together with its prototype:
    [None] is [Object.prototype], which [{}] starts with. *)
Record AccountConfigStack : Type := {
  config : ConfigValue;
  this_accountId : string;
  parameters : JS.Object StringParameter;
  parametersPrototype : option StringParameter;
  node : Scope.t Resource
}.

Definition withNode (n : Scope.t Resource) (this : AccountConfigStack)
  : AccountConfigStack :=
  {| config := config this;
     this_accountId := this_accountId this;
     parameters := parameters this;
     parametersPrototype := parametersPrototype this;
     node := n |}.

(** [new X(this, id, props)]. Modelled from the spec: section 4.1,
    declaring under an id that is already used in the same graph fails
    (DuplicateIdError); the construct library is not under src/. The id
    is compared and stored as the library sanitizes it. *)
Definition addChild (id : string) (r : Resource) (this : AccountConfigStack)
  : Result AccountConfigStack :=
  let id' := Scope.sanitizeId id in
  if existsb (String.eqb id') (map fst (node this))
  then ThrowFromLibrary (DuplicateConstructId id')
  else Ok (withNode (node this ++ [(id', r)]) this).

(** One turn of a loop that declares a construct and then updates the
    fields of the stack. *)
Definition declareThen {A : Type} (idOf : A -> string) (resOf : A -> Resource)
    (update : A -> AccountConfigStack -> AccountConfigStack)
    (this : AccountConfigStack) (x : A) : Result AccountConfigStack :=
  andThen (addChild (idOf x) (resOf x) this) (fun this => Ok (update x this)).

(** The body of the [try] block of the constructor. *)
Definition readContext (contextFilePath' : string)
  : string + JS.Object AccountConfig :=
  match readFileSync contextFilePath' with
  | inl error => inl error
  | inr contextContent => JSON_parse contextContent
  end.

(** [typeof value === 'string' ? value : JSON.stringify(value)]. *)
Definition toStringValue (value : JSON number) : string :=
  match value with
  | JString s => s
  | _ => JSON_stringify value
  end.

(** The parameter one turn of the [forEach] of
    [uploadConfigToParameterStore] constructs. *)
Definition newStringParameter (parameterPrefix' key : string)
    (value : JSON number) : StringParameter :=
  let parameterName' := (parameterPrefix' ++ "/" ++ key)%string in
  let stringValue' := toStringValue value in
  {| constructId := parameterId key;
     parameterName := parameterName';
     stringValue := stringValue';
     description := "Account configuration value for " ++ key;
     tier := STANDARD |}.

(** [this.parameters[key] = parameter]: the key [__proto__] sets the
    prototype of the object and adds no property. *)
Definition assignParameter (key : string) (parameter : StringParameter)
    (this : AccountConfigStack) : AccountConfigStack :=
  if String.eqb key "__proto__"
  then {| config := config this;
          this_accountId := this_accountId this;
          parameters := parameters this;
          parametersPrototype := Some parameter;
          node := node this |}
  else {| config := config this;
          this_accountId := this_accountId this;
          parameters := JS.set (parameters this) key parameter;
          parametersPrototype := parametersPrototype this;
          node := node this |}.

(** One turn of that [forEach]: the parameter is declared in the stack,
    then stored in [this.parameters]. *)
Definition uploadEntry (parameterPrefix' : string)
    (this : AccountConfigStack) (entry : string * JSON number)
  : Result AccountConfigStack :=
  let (key, value) := entry in
  let parameter := newStringParameter parameterPrefix' key value in
  andThen
    (addChild ("Parameter" ++ capitalizeFirst key) (SsmStringParameter parameter)
       this)
    (fun this => Ok (assignParameter key parameter this)).

Definition uploadConfigToParameterStore (parameterPrefix' : string)
    (this : AccountConfigStack) : Result AccountConfigStack :=
  forEach (uploadEntry parameterPrefix') (configEntries (config this)) this.

Definition getAllConfigKeys (this : AccountConfigStack) : list string :=
  map fst (configEntries (config this)).

(** [new CfnOutput(this, id, props)]. *)
Definition addOutput (id : string) (value : Scope.Value) (descr : string)
    (this : AccountConfigStack) : Result AccountConfigStack :=
  addChild id (CfnOutput {| out_value := value; out_description := descr |}) this.

(** The output of one entry of [this.parameters]. *)
Definition arnOutput (entry : string * StringParameter) : Resource :=
  CfnOutput {| out_value := [Scope.Token (constructId (snd entry)) Scope.ParameterArn];
               out_description := "Parameter Store ARN for " ++ fst entry |}.

Definition createOutputs (parameterPrefix' : string)
    (this : AccountConfigStack) : Result AccountConfigStack :=
  andThen
    (addOutput "AccountId" [Scope.Lit (this_accountId this)] "AWS Account ID" this)
    (fun this =>
  andThen
    (addOutput "ParameterPrefix" [Scope.Lit parameterPrefix']
       "Parameter Store prefix for account configuration" this)
    (fun this =>
  andThen
    (addOutput "ConfigKeys" [Scope.Lit (JS.join "," (getAllConfigKeys this))]
       "Available configuration keys" this)
    (fun this =>
  forEach
    (fun acc (entry : string * StringParameter) =>
       addChild (capitalizeFirst (fst entry) ++ "ParameterArn") (arnOutput entry) acc)
    (JS.entries (parameters this)) this))).

(** The outputs [createOutputs] declares, with the ids it asks for. *)
Definition outputsToDeclare (parameterPrefix' : string)
    (this : AccountConfigStack) : list (string * Resource) :=
  [ ("AccountId",
     CfnOutput {| out_value := [Scope.Lit (this_accountId this)];
                  out_description := "AWS Account ID" |});
    ("ParameterPrefix",
     CfnOutput {| out_value := [Scope.Lit parameterPrefix'];
                  out_description :=
                    "Parameter Store prefix for account configuration" |});
    ("ConfigKeys",
     CfnOutput {| out_value := [Scope.Lit (JS.join "," (getAllConfigKeys this))];
                  out_description := "Available configuration keys" |}) ]
  ++ map (fun entry : string * StringParameter =>
            ((capitalizeFirst (fst entry) ++ "ParameterArn")%string,
             arnOutput entry))
       (JS.entries (parameters this)).

(** The constructs a record gives rise to, in the order of declaration,
    under the ids they end up with. *)
Definition constructsFor (accountId' parameterPrefix' : string)
    (record : AccountConfig) : Scope.t Resource :=
  map (fun kv =>
         (parameterId (fst kv),
          SsmStringParameter (newStringParameter parameterPrefix' (fst kv) (snd kv))))
    record
  ++ [ ("AccountId",
        CfnOutput {| out_value := [Scope.Lit accountId'];
                     out_description := "AWS Account ID" |});
       ("ParameterPrefix",
        CfnOutput {| out_value := [Scope.Lit parameterPrefix'];
                     out_description :=
                       "Parameter Store prefix for account configuration" |});
       ("ConfigKeys",
        CfnOutput {| out_value := [Scope.Lit (JS.join "," (JS.keys record))];
                     out_description := "Available configuration keys" |}) ]
  ++ map (fun kv =>
            (arnOutputId (fst kv),
             CfnOutput {| out_value := [Scope.Token (parameterId (fst kv))
                                          Scope.ParameterArn];
                          out_description :=
                            ("Parameter Store ARN for " ++ fst kv)%string |}))
       (filter (fun kv => negb (String.eqb (fst kv) "__proto__")) record).

(** The account id, the path of the context file and the prefix the
    constructor resolves; [stackAccount] is [this.account] of the
    [Stack] base class. *)
Definition resolvedAccountId (stackAccount : string)
    (props : AccountConfigStackProps) : string :=
  JS.or_string (accountId props) stackAccount.

Definition resolvedContextFilePath (props : AccountConfigStackProps) : string :=
  JS.or_string (contextFilePath props) (path_join process_cwd "cdk.context.json").

Definition resolvedParameterPrefix (stackAccount : string)
    (props : AccountConfigStackProps) : string :=
  JS.or_string (parameterPrefix props)
    ("/account-config/" ++ resolvedAccountId stackAccount props).

(** [accountsContext[this.accountId]]: [None] when it is falsy, that is
    [undefined]; a record and an inherited property are truthy. *)
Definition accountConfigOf (accountsContext : JS.Object AccountConfig)
    (accountId' : string) : option ConfigValue :=
  match JS.read accountsContext accountId' with
  | JS.Own record => Some (ConfigRecord record)
  | JS.Inherited name => Some (ConfigInherited name)
  | JS.Undefined => None
  end.

Definition constructor (stackAccount : string) (props : AccountConfigStackProps)
  : Result AccountConfigStack :=
  let accountId' := resolvedAccountId stackAccount props in
  let contextFilePath' := resolvedContextFilePath props in
  let parameterPrefix' := resolvedParameterPrefix stackAccount props in
  match readContext contextFilePath' with
  | inl error =>
      Throw ("Failed to read or parse context file at " ++ contextFilePath'
             ++ ": " ++ error)
  | inr accountsContext =>
      match accountConfigOf accountsContext accountId' with
      | None =>
          Throw ("No configuration found for account ID '" ++ accountId'
                 ++ "'. Available accounts: "
                 ++ JS.join ", " (JS.keys accountsContext))
      | Some config' =>
          let this := {| config := config';
                         this_accountId := accountId';
                         parameters := [];
                         parametersPrototype := None;
                         node := [] |} in
          andThen (uploadConfigToParameterStore parameterPrefix' this)
                  (createOutputs parameterPrefix')
      end
  end.

(** What the built-ins hold, as far as the methods can reach them:
    whether the property [name] of [Object.prototype] has itself a
    property [key] that is not [undefined], and whether a
    [StringParameter] construct has a truthy property [key]. *)
Variable inheritedHas : string -> string -> bool.
Variable parameterHas : string -> bool.

(** [this.parameters[key]] is truthy without being an own property. *)
Definition parametersInherit (this : AccountConfigStack) (key : string) : bool :=
  match parametersPrototype this with
  | None => JS.inherits key
  | Some _ => String.eqb key "__proto__" || parameterHas key
  end.

Definition getParameter (this : AccountConfigStack) (key : string)
  : Result Looked :=
  match JS.get (parameters this) key with
  | Some parameter => Ok (TheParameter parameter)
  | None =>
      if parametersInherit this key
      then Ok (match parametersPrototype this with
               | Some prototype =>
                   if String.eqb key "__proto__" then TheParameter prototype
                   else InheritedProperty key
               | None => InheritedProperty key
               end)
      else Throw ("Parameter '" ++ key ++ "' not found. Available parameters: "
                  ++ JS.join ", " (JS.keys (parameters this)))
  end.

(** [this.config[key]]: [None] is [undefined]. *)
Definition configValue (this : AccountConfigStack) (key : string) : option Any :=
  match config this with
  | ConfigRecord record =>
      match JS.read record key with
      | JS.Own value => Some (FromDocument value)
      | JS.Inherited name => Some (FromPrototype [name])
      | JS.Undefined => None
      end
  | ConfigInherited name =>
      if inheritedHas name key then Some (FromPrototype [name; key]) else None
  end.

(** [getConfigValue(key, defaultValue?)]: [None] is [undefined], for the
    omitted default as for the result. *)
Definition getConfigValue (this : AccountConfigStack) (key : string)
    (defaultValue : option Any) : option Any :=
  match configValue this key with
  | Some value => Some value
  | None => defaultValue
  end.

Definition hasConfig (this : AccountConfigStack) (key : string) : bool :=
  match configValue this key with
  | Some _ => true
  | None => false
  end.

(** The configuration entries the stack publishes, in order. *)
Definition published (this : AccountConfigStack) : list StringParameter :=
  flat_map (fun c => match snd c with
                     | SsmStringParameter p => [p]
                     | CfnOutput _ => []
                     end) (node this).

(** The published entries at a path. *)
Definition entriesAt (path : string) (this : AccountConfigStack)
  : list StringParameter :=
  filter (fun p => String.eqb (parameterName p) path) (published this).

(** The outputs of the stack, in order. *)
Definition outputsOf (this : AccountConfigStack)
  : list (string * CfnOutputProps) :=
  flat_map (fun c => match snd c with
                     | CfnOutput p => [(fst c, p)]
                     | SsmStringParameter _ => []
                     end) (node this).

(** The construct ids of the stack, in declaration order. *)
Definition constructIds (this : AccountConfigStack) : list string :=
  map fst (node this).

End Stack.

Arguments ConfigRecord {number} record.
Arguments ConfigInherited {number} name.
Arguments FromDocument {number} value.
Arguments FromPrototype {number} path.
Arguments outputsOf {number} this.
Arguments constructIds {number} this.
Arguments config {number} _.
Arguments this_accountId {number} _.
Arguments parameters {number} _.
Arguments parametersPrototype {number} _.
Arguments node {number} _.
Arguments withNode {number} n this.
Arguments addChild {number} id r this.
Arguments declareThen {number A} idOf resOf update this x.
Arguments assignParameter {number} key parameter this.
Arguments configEntries {number} c.
Arguments published {number} this.
Arguments entriesAt {number} path this.
Arguments configValue {number} inheritedHas this key.
Arguments getConfigValue {number} inheritedHas this key defaultValue.
Arguments hasConfig {number} inheritedHas this key.
Arguments parametersInherit {number} parameterHas this key.
Arguments getParameter {number} parameterHas this key.
Arguments getAllConfigKeys {number} this.
Arguments addOutput {number} id value descr this.
Arguments createOutputs {number} parameterPrefix' this.
Arguments outputsToDeclare {number} parameterPrefix' this.

(** A context document with the one account of the example, and a
    platform that reads it from every path. *)
Definition exampleRecord : JS.Object (JSON Z) :=
  [("stage", JString "dev"); ("zone", JString "dev.example.com")].

Definition exampleContext : JS.Object (JS.Object (JSON Z)) :=
  [("123456789012", exampleRecord)].

Definition exampleProps : AccountConfigStackProps :=
  {| accountId := None; contextFilePath := None; parameterPrefix := None |}.

Definition exampleStack (stackAccount : string)
  : Result (AccountConfigStack Z) :=
  constructor Z (fun _ => "null") "/app"
    (fun dir file => (dir ++ "/" ++ file)%string)
    (fun _ => inr "{}") (fun _ => inr exampleContext)
    stackAccount exampleProps.

(** The stack the example resolves to for its own account. *)
Definition exampleResolved : AccountConfigStack Z :=
  match exampleStack "123456789012" with
  | Ok stack => stack
  | _ => {| config := ConfigRecord []; this_accountId := "";
            parameters := []; parametersPrototype := None; node := [] |}
  end.

(** A document whose account has two keys that differ in the case of
    their first letter only, read on the same platform. *)
Definition collidingRecord : JS.Object (JSON Z) :=
  [("stage", JString "dev"); ("Stage", JString "prod")].

Definition collidingStack : Result (AccountConfigStack Z) :=
  constructor Z (fun _ => "null") "/app"
    (fun dir file => (dir ++ "/" ++ file)%string)
    (fun _ => inr "{}") (fun _ => inr [("123456789012", collidingRecord)])
    "123456789012" exampleProps.

(** The example resolved for the account id toString, which is no key of
    the document. *)
Definition inheritedIdProps : AccountConfigStackProps :=
  {| accountId := Some "toString"; contextFilePath := None;
     parameterPrefix := None |}.

Definition inheritedIdStack : Result (AccountConfigStack Z) :=
  constructor Z (fun _ => "null") "/app"
    (fun dir file => (dir ++ "/" ++ file)%string)
    (fun _ => inr "{}") (fun _ => inr exampleContext)
    "123456789012" inheritedIdProps.

(** [msg] mentions [k]. *)
Definition mentions (msg k : string) : Prop :=
  exists before after : string, msg = (before ++ k ++ after)%string.

End AccountConfig.

(** ** ExampleStack (spa-construct/lib/example-stack.ts) *)

Module ExampleStack.

Import Website.

Record ExampleStackProps : Type := {
  ex_domainName : string;
  ex_hostedZoneId : option string;
  ex_codeSourcePath : option string
}.

(** [s.replace(/\./g, '-')]: every dot becomes a dash. *)
Fixpoint replaceDots (s : string) : string :=
  match s with
  | EmptyString => EmptyString
  | String c s' =>
      String (if Ascii.eqb c "." then "-"%char else c) (replaceDots s')
  end.

(** The props the stack passes to [SecureWebsite]. *)
Definition websiteProps (props : ExampleStackProps) : SecureWebsiteProps :=
  {| domainName := ex_domainName props;
     account := None;
     hostedZoneId := ex_hostedZoneId props;
     bucketName := Some (replaceDots (ex_domainName props) ++ "-website")%string;
     distributionComment :=
       Some ("Secure website for " ++ ex_domainName props)%string;
     errorDocument := Some "error.html";
     indexDocument := Some "index.html";
     enableWaf := Some true;
     wafRules := Some
       [ {| name := "AWSManagedRulesCommonRuleSet"; priority := 1;
            action := "BLOCK"; ruleType := "MANAGED_RULE";
            configuration := Some {| limit := None; countryCodes := None;
                                     cfg_name := Some "AWSManagedRulesCommonRuleSet";
                                     ipAddresses := None |} |};
         {| name := "AWSManagedRulesKnownBadInputsRuleSet"; priority := 2;
            action := "BLOCK"; ruleType := "MANAGED_RULE";
            configuration := Some {| limit := None; countryCodes := None;
                                     cfg_name := Some "AWSManagedRulesKnownBadInputsRuleSet";
                                     ipAddresses := None |} |};
         {| name := "RateLimitRule"; priority := 10;
            action := "BLOCK"; ruleType := "RATE_LIMIT";
            configuration := Some {| limit := Some 1000%Z; countryCodes := None;
                                     cfg_name := None; ipAddresses := None |} |};
         {| name := "GeoBlockRule"; priority := 11;
            action := "BLOCK"; ruleType := "GEO_BLOCK";
            configuration := Some {| limit := None;
                                     countryCodes := Some ["CN"; "RU"; "KP"];
                                     cfg_name := None; ipAddresses := None |} |} ];
     codeSourcePath := ex_codeSourcePath props;
     priceClass := Some PRICE_CLASS_100;
     removalPolicy := Some DESTROY;
     subjectAlternativeNames := Some [("www." ++ ex_domainName props)%string];
     enableLogging := Some true;
     logsBucketName :=
       Some (replaceDots (ex_domainName props) ++ "-logs")%string |}.

(** The stack: the website construct, its graph, and the tags added to
    the stack, in order. *)
Record ExampleStack : Type := {
  website : SecureWebsite;
  websiteGraph : Graph;
  tags : list (string * string)
}.

Definition new_ExampleStack (props : ExampleStackProps) : ExampleStack :=
  {| website := fst (new_SecureWebsite (websiteProps props));
     websiteGraph := snd (new_SecureWebsite (websiteProps props));
     tags := [("Project", "SecureWebsite");
              ("Environment", "Production");
              ("ManagedBy", "CDK")] |}.

(** The two stacks of the example app (bin/cdk-constructs.ts). *)
Definition exampleWebsiteStackProps : ExampleStackProps :=
  {| ex_domainName := "example.com";
     ex_hostedZoneId := None; ex_codeSourcePath := None |}.

Definition testWebsiteStackProps : ExampleStackProps :=
  {| ex_domainName := "test.example.com";
     ex_hostedZoneId := None; ex_codeSourcePath := None |}.

End ExampleStack.

(** * Properties *)

(** ** Strings: [split] and [join] *)

Section SplitJoin.

Variable sep : ascii.

Lemma split_nonempty (s : string) : JS.split sep s <> [].
Proof.
  destruct s as [|c s]; simpl; [discriminate|].
  destruct (Ascii.eqb c sep); [discriminate|].
  destruct (JS.split sep s); discriminate.
Qed.

(** A label is one part. *)
Lemma split_label (l : string) :
  JS.isLabel sep l = true -> JS.split sep l = [l].
Proof.
  induction l as [|c l IH]; simpl; [reflexivity|].
  destruct (Ascii.eqb c sep); simpl; [discriminate|].
  intro Hl. now rewrite (IH Hl).
Qed.

(** A label followed by the separator is the first part. *)
Lemma split_label_sep (l rest : string) :
  JS.isLabel sep l = true ->
  JS.split sep (l ++ String sep rest)%string = l :: JS.split sep rest.
Proof.
  induction l as [|c l IH]; simpl.
  - intros _. now rewrite Ascii.eqb_refl.
  - destruct (Ascii.eqb c sep); simpl; [discriminate|].
    intro Hl. now rewrite (IH Hl).
Qed.

(** Splitting undoes joining labels. *)
Lemma split_join (labels : list string) :
  labels <> [] ->
  Forall (fun l => JS.isLabel sep l = true) labels ->
  JS.split sep (JS.join (String sep "") labels) = labels.
Proof.
  intros Hne Hall. induction Hall as [|l labels Hl Hall IH]; [contradiction|].
  destruct labels as [|l' labels].
  - simpl. now apply split_label.
  - change (JS.join (String sep "") (l :: l' :: labels))
      with (l ++ String sep (JS.join (String sep "") (l' :: labels)))%string.
    rewrite split_label_sep by assumption.
    f_equal. apply IH. discriminate.
Qed.

End SplitJoin.

(** ** Computations in a scope *)

Section ScopeFacts.

Import Scope.

Context {R : Type}.

Lemma findChild_app (id : string) (s1 s2 : Scope.t R) :
  findChild id (s1 ++ s2) =
  match findChild id s1 with
  | Some r => Some r
  | None => findChild id s2
  end.
Proof.
  induction s1 as [|[id' r] s1 IH]; simpl; [reflexivity|].
  destruct (String.eqb id id'); [reflexivity | exact IH].
Qed.

Lemma framed_ret {A : Type} (a : A) : framed (ret (R := R) a).
Proof. intro s. unfold ret, result, emitted. simpl. now rewrite app_nil_r. Qed.

Lemma framed_declare (id : string) (r : R) : framed (declare id r).
Proof. intro s. reflexivity. Qed.

Lemma framed_bind {A B : Type} (m : M R A) (k : A -> M R B) :
  framed m -> (forall a, framed (k a)) -> framed (bind m k).
Proof.
  intros Hm Hk s. unfold result, emitted, bind.
  rewrite (Hm s), (Hm []). simpl.
  rewrite (Hk (result m) (s ++ emitted m)), (Hk (result m) (emitted m)).
  simpl. now rewrite app_assoc.
Qed.

Lemma result_bind {A B : Type} (m : M R A) (k : A -> M R B) :
  framed m -> framed (k (result m)) ->
  result (bind m k) = result (k (result m)).
Proof.
  intros Hm Hk. unfold result at 1. unfold bind.
  rewrite (Hm []). simpl. now rewrite (Hk (emitted m)).
Qed.

Lemma emitted_bind {A B : Type} (m : M R A) (k : A -> M R B) :
  framed m -> framed (k (result m)) ->
  emitted (bind m k) = emitted m ++ emitted (k (result m)).
Proof.
  intros Hm Hk. unfold emitted at 1. unfold bind.
  rewrite (Hm []). simpl. now rewrite (Hk (emitted m)).
Qed.

Lemma findChild_absent (id : string) (s : Scope.t R) :
  ~ In id (map fst s) -> findChild id s = None.
Proof.
  induction s as [|[id' r] s IH]; simpl; [reflexivity|].
  intro H. destruct (String.eqb_spec id id') as [->|_].
  - exfalso. apply H. now left.
  - apply IH. intro Hin. apply H. now right.
Qed.

End ScopeFacts.

Create HintDb framed.
#[export] Hint Resolve framed_ret framed_declare framed_bind : framed.

(** ** SecureWebsite *)

Section WebsiteFacts.

Import Scope Website.

Lemma createWafStatement_frame (rule : WafRule) (s : Graph) :
  createWafStatement rule s = (statementOf rule, s ++ ipSetsOf rule).
Proof.
  unfold statementOf, ipSetsOf, createWafStatement.
  destruct (String.eqb (ruleType rule) "RATE_LIMIT");
    [simpl; now rewrite app_nil_r|].
  destruct (String.eqb (ruleType rule) "MANAGED_RULE");
    [simpl; now rewrite app_nil_r|].
  destruct (String.eqb (ruleType rule) "GEO_BLOCK");
    [simpl; now rewrite app_nil_r|].
  destruct (String.eqb (ruleType rule) "IP_SET");
    [reflexivity | simpl; now rewrite app_nil_r].
Qed.

Lemma createWebAcl_frame (rules : list WafRule) (s : Graph) :
  createWebAcl rules s =
  ("WebACL",
   s ++ flat_map ipSetsOf rules ++ [("WebACL", CfnWebACL (webAclProps rules))]).
Proof.
  unfold createWebAcl, bind at 1.
  match goal with
  | |- context [mapM ?f rules s] =>
      assert (H : forall l t, mapM f l t = (map rulePropertyOf l, t ++ flat_map ipSetsOf l))
  end.
  { induction l as [|rule l IH]; intro t; simpl.
    - unfold ret. now rewrite app_nil_r.
    - unfold bind at 1. unfold bind at 1.
      rewrite createWafStatement_frame. unfold ret at 1.
      unfold bind at 1. rewrite IH. unfold ret.
      now rewrite <- app_assoc. }
  rewrite H. unfold declare. now rewrite <- app_assoc.
Qed.

Lemma result_createWebAcl (rules : list WafRule) :
  result (createWebAcl rules) = "WebACL".
Proof. unfold result. now rewrite createWebAcl_frame. Qed.

Lemma emitted_createWebAcl (rules : list WafRule) :
  emitted (createWebAcl rules) =
  flat_map ipSetsOf rules ++ [("WebACL", CfnWebACL (webAclProps rules))].
Proof. unfold emitted. now rewrite createWebAcl_frame. Qed.

Lemma framed_createWebAcl (rules : list WafRule) : framed (createWebAcl rules).
Proof.
  intro s. rewrite result_createWebAcl, emitted_createWebAcl.
  apply createWebAcl_frame.
Qed.

Hint Resolve framed_createWebAcl : framed.

Lemma framed_getHostedZone props : framed (getHostedZone props).
Proof.
  unfold getHostedZone.
  destruct (hostedZoneId props) as [zoneId|]; [destruct (JS.truthy_string zoneId)|];
    auto with framed.
Qed.

Lemma framed_createLogsBucket props : framed (createLogsBucket props).
Proof.
  unfold createLogsBucket.
  destruct (JS.truthy_opt_bool (enableLogging props)); auto with framed.
Qed.

Lemma framed_createFirewall props : framed (createFirewall props).
Proof.
  unfold createFirewall.
  destruct (not_false (enableWaf props)); auto with framed.
Qed.

Lemma framed_deployContent props b d : framed (deployContent props b d).
Proof.
  unfold deployContent.
  destruct (codeSourcePath props) as [p|]; [destruct (JS.truthy_string p)|];
    auto with framed.
Qed.

Lemma framed_createOutputs this props : framed (createOutputs this props).
Proof.
  unfold createOutputs.
  destruct (webAcl this), (logsBucket this); auto 20 with framed.
Qed.

Hint Resolve framed_getHostedZone framed_createLogsBucket framed_createFirewall
  framed_deployContent framed_createOutputs : framed.

Lemma framed_createCertificate props h : framed (createCertificate props h).
Proof. apply framed_declare. Qed.

Lemma framed_createWebsiteBucket props : framed (createWebsiteBucket props).
Proof. apply framed_declare. Qed.

Lemma framed_createOriginAccessControl props :
  framed (createOriginAccessControl props).
Proof. apply framed_declare. Qed.

Lemma framed_createDistribution props b o c w l :
  framed (createDistribution props b o c w l).
Proof. apply framed_declare. Qed.

Lemma framed_grantDistributionAccess a b d :
  framed (grantDistributionAccess a b d).
Proof. apply framed_declare. Qed.

Lemma framed_createARecord props h d : framed (createARecord props h d).
Proof. apply framed_declare. Qed.

Lemma framed_createAaaaRecord props h d : framed (createAaaaRecord props h d).
Proof. apply framed_declare. Qed.

Hint Resolve framed_createCertificate framed_createWebsiteBucket
  framed_createOriginAccessControl framed_createDistribution
  framed_grantDistributionAccess framed_createARecord
  framed_createAaaaRecord : framed.

Lemma framed_constructor props : framed (constructor props).
Proof. unfold constructor. auto 30 with framed. Qed.

Lemma result_getHostedZone props : result (getHostedZone props) = "HostedZone".
Proof.
  unfold getHostedZone.
  destruct (hostedZoneId props) as [zoneId|]; [destruct (JS.truthy_string zoneId)|];
    reflexivity.
Qed.

Lemma result_createLogsBucket props :
  result (createLogsBucket props) =
  if JS.truthy_opt_bool (enableLogging props) then Some "LogsBucket" else None.
Proof.
  unfold createLogsBucket.
  destruct (JS.truthy_opt_bool (enableLogging props)); reflexivity.
Qed.

Lemma result_createFirewall props :
  result (createFirewall props) =
  if not_false (enableWaf props) then Some "WebACL" else None.
Proof.
  unfold createFirewall.
  destruct (not_false (enableWaf props)); [|reflexivity].
  rewrite result_bind by auto with framed.
  now rewrite result_createWebAcl.
Qed.

Lemma emitted_createFirewall props :
  emitted (createFirewall props) =
  if not_false (enableWaf props)
  then emitted (createWebAcl (JS.or_object (wafRules props) getDefaultWafRules))
  else [].
Proof.
  unfold createFirewall.
  destruct (not_false (enableWaf props)); [|reflexivity].
  rewrite emitted_bind by auto with framed.
  apply app_nil_r.
Qed.

Ltac step_bind :=
  first [ rewrite emitted_bind by (cbv beta; auto 30 with framed)
        | rewrite result_bind by (cbv beta; auto 30 with framed) ];
  cbv beta;
  rewrite ?result_getHostedZone.

Lemma graph_eq props :
  graph props =
    emitted (getHostedZone props)
    ++ emitted (createCertificate props "HostedZone")
    ++ emitted (createWebsiteBucket props)
    ++ emitted (createLogsBucket props)
    ++ emitted (createOriginAccessControl props)
    ++ emitted (createFirewall props)
    ++ emitted (createDistribution props "WebsiteBucket" "OAC" "Certificate"
                  (result (createFirewall props)) (result (createLogsBucket props)))
    ++ emitted (grantDistributionAccess (JS.or_string (account props) "*")
                  "WebsiteBucket" "Distribution")
    ++ emitted (createARecord props "HostedZone" "Distribution")
    ++ emitted (createAaaaRecord props "HostedZone" "Distribution")
    ++ emitted (deployContent props "WebsiteBucket" "Distribution")
    ++ emitted (createOutputs (thisOf props) props).
Proof.
  unfold graph, new_SecureWebsite.
  change (snd (constructor props [])) with (emitted (constructor props)).
  unfold constructor.
  repeat step_bind.
  change (emitted (ret (R := Resource) ?x)) with (@nil (string * Resource)).
  rewrite app_nil_r. reflexivity.
Qed.

Lemma object_eq props : object props = thisOf props.
Proof.
  unfold object, new_SecureWebsite.
  change (fst (constructor props [])) with (result (constructor props)).
  unfold constructor.
  repeat step_bind.
  reflexivity.
Qed.

(** *** Where a construct is found in the graph *)

Lemma findChild_getHostedZone (id : string) props :
  String.eqb id "HostedZone" = false ->
  findChild id (emitted (getHostedZone props)) = None.
Proof.
  intro Hid. unfold getHostedZone.
  destruct (hostedZoneId props) as [zoneId|]; [destruct (JS.truthy_string zoneId)|];
    cbn [emitted declare snd app findChild]; now rewrite Hid.
Qed.

Lemma findChild_createLogsBucket (id : string) props :
  String.eqb id "LogsBucket" = false ->
  findChild id (emitted (createLogsBucket props)) = None.
Proof.
  intro Hid. unfold createLogsBucket.
  destruct (JS.truthy_opt_bool (enableLogging props)); [|reflexivity].
  cbn [emitted bind declare ret snd app findChild]. now rewrite Hid.
Qed.

Lemma ipSetsOf_ids (id : string) (rule : WafRule) :
  String.prefix "IPSet-" id = false -> findChild id (ipSetsOf rule) = None.
Proof.
  intro Hid. unfold ipSetsOf, createWafStatement.
  destruct (String.eqb (ruleType rule) "RATE_LIMIT"); [reflexivity|].
  destruct (String.eqb (ruleType rule) "MANAGED_RULE"); [reflexivity|].
  destruct (String.eqb (ruleType rule) "GEO_BLOCK"); [reflexivity|].
  destruct (String.eqb (ruleType rule) "IP_SET"); [|reflexivity].
  cbn [bind declare ret snd app findChild].
  destruct (String.eqb_spec id ("IPSet-" ++ name rule)) as [->|_]; [|reflexivity].
  simpl in Hid. destruct (name rule); discriminate.
Qed.

Lemma findChild_ipSets (id : string) (rules : list WafRule) :
  String.prefix "IPSet-" id = false ->
  findChild id (flat_map ipSetsOf rules) = None.
Proof.
  intro Hid. induction rules as [|rule rules IH]; [reflexivity|].
  simpl. rewrite findChild_app, (ipSetsOf_ids id rule Hid). exact IH.
Qed.

Lemma findChild_createFirewall (id : string) props :
  String.prefix "IPSet-" id = false ->
  findChild id (emitted (createFirewall props)) =
  if not_false (enableWaf props) && String.eqb id "WebACL"
  then Some (CfnWebACL (webAclProps (JS.or_object (wafRules props) getDefaultWafRules)))
  else None.
Proof.
  intro Hid. rewrite emitted_createFirewall.
  destruct (not_false (enableWaf props)); [|reflexivity].
  rewrite emitted_createWebAcl, findChild_app, findChild_ipSets by assumption.
  cbn [findChild andb]. now destruct (String.eqb id "WebACL").
Qed.

Lemma findChild_deployContent (id : string) props b d :
  String.eqb id "WebsiteDeployment" = false ->
  findChild id (emitted (deployContent props b d)) = None.
Proof.
  intro Hid. unfold deployContent.
  destruct (codeSourcePath props) as [p|]; [destruct (JS.truthy_string p)|];
    try reflexivity.
  cbn [emitted bind declare ret snd app findChild]. now rewrite Hid.
Qed.

Lemma findChild_createOutputs (id : string) this props :
  ~ In id outputIds ->
  findChild id (emitted (createOutputs this props)) = None.
Proof.
  intro Hid. apply findChild_absent. intro Hin. apply Hid.
  unfold createOutputs in Hin.
  destruct (webAcl this), (logsBucket this); simpl in Hin; unfold outputIds;
    simpl; tauto.
Qed.

(** Finds a child of the graph whose id is a literal. *)
Ltac find_in_graph :=
  rewrite graph_eq;
  repeat (rewrite findChild_app;
          first [ rewrite findChild_getHostedZone by reflexivity
                | rewrite findChild_createLogsBucket by reflexivity
                | rewrite findChild_createFirewall by reflexivity
                | rewrite findChild_deployContent by reflexivity
                | idtac ];
          cbn [emitted createCertificate createWebsiteBucket
               createOriginAccessControl createDistribution
               grantDistributionAccess createARecord createAaaaRecord
               declare snd app findChild String.eqb Ascii.eqb Bool.eqb andb]);
  rewrite ?findChild_createOutputs
    by (unfold outputIds; simpl; intuition discriminate).

Lemma bucketOf_WebsiteBucket props :
  bucketOf "WebsiteBucket" (graph props) =
  Some {| b_bucketName := bucketName props;
          b_publicReadAccess := false;
          b_blockPublicAccess := BLOCK_ALL;
          b_removalPolicy := JS.or_object (removalPolicy props) DESTROY;
          b_autoDeleteObjects := is_DESTROY (removalPolicy props);
          b_versioned := Some true;
          b_encryption := Some S3_MANAGED;
          b_lifecycleRules := None |}.
Proof. unfold bucketOf. find_in_graph. reflexivity. Qed.

Lemma webAclOf_WebACL props :
  webAclOf "WebACL" (graph props) =
  if not_false (enableWaf props)
  then Some (webAclProps (JS.or_object (wafRules props) getDefaultWafRules))
  else None.
Proof.
  unfold webAclOf. find_in_graph.
  destruct (not_false (enableWaf props)); reflexivity.
Qed.

Lemma distributionOf_Distribution props :
  exists d,
    distributionOf "Distribution" (graph props) = Some d /\
    d_webAclId d =
      option_map (fun acl => [Token acl AttrArn]) (webAcl (object props)) /\
    d_defaultRootObject d = JS.or_string (indexDocument props) "index.html" /\
    d_errorResponses d = [errorResponse 403 props; errorResponse 404 props].
Proof.
  rewrite object_eq. unfold distributionOf. find_in_graph.
  destruct (not_false (enableWaf props)); cbn [andb];
    eexists; (split; [reflexivity|]); repeat split.
Qed.

(** *** The graph without a firewall *)

Lemma no_firewall_in_graph props :
  enableWaf props = Some false ->
  forallb (fun c => negb (isFirewall (snd c))) (graph props) = true.
Proof.
  intro Hwaf.
  rewrite graph_eq, emitted_createFirewall, Hwaf. cbn [not_false].
  rewrite !forallb_app.
  repeat (apply andb_true_intro; split); try reflexivity.
  - unfold getHostedZone.
    destruct (hostedZoneId props) as [z|]; [destruct (JS.truthy_string z)|];
      reflexivity.
  - unfold createLogsBucket.
    destruct (JS.truthy_opt_bool (enableLogging props)); reflexivity.
  - unfold deployContent.
    destruct (codeSourcePath props) as [p|]; [destruct (JS.truthy_string p)|];
      reflexivity.
  - unfold createOutputs.
    destruct (webAcl (thisOf props)), (logsBucket (thisOf props)); reflexivity.
Qed.

Lemma outputs_app (g1 g2 : Graph) : outputs (g1 ++ g2) = outputs g1 ++ outputs g2.
Proof. apply flat_map_app. Qed.

Lemma outputs_ipSets (rules : list WafRule) : outputs (flat_map ipSetsOf rules) = [].
Proof.
  induction rules as [|rule rules IH]; [reflexivity|].
  simpl. rewrite outputs_app, IH, app_nil_r.
  unfold ipSetsOf, createWafStatement.
  destruct (String.eqb (ruleType rule) "RATE_LIMIT"); [reflexivity|].
  destruct (String.eqb (ruleType rule) "MANAGED_RULE"); [reflexivity|].
  destruct (String.eqb (ruleType rule) "GEO_BLOCK"); [reflexivity|].
  destruct (String.eqb (ruleType rule) "IP_SET"); reflexivity.
Qed.

(** The output projection reads the graph: the outputs are the ones
    [createOutputs] declares. *)
Lemma outputs_graph props :
  outputs (graph props) = outputs (emitted (createOutputs (thisOf props) props)).
Proof.
  rewrite graph_eq, !outputs_app.
  replace (outputs (emitted (getHostedZone props))) with (@nil (string * CfnOutputProps)).
  2:{ unfold getHostedZone.
      destruct (hostedZoneId props) as [z|]; [destruct (JS.truthy_string z)|];
        reflexivity. }
  replace (outputs (emitted (createLogsBucket props))) with (@nil (string * CfnOutputProps)).
  2:{ unfold createLogsBucket.
      destruct (JS.truthy_opt_bool (enableLogging props)); reflexivity. }
  replace (outputs (emitted (createFirewall props))) with (@nil (string * CfnOutputProps)).
  2:{ rewrite emitted_createFirewall.
      destruct (not_false (enableWaf props)); [|reflexivity].
      now rewrite emitted_createWebAcl, outputs_app, outputs_ipSets. }
  replace (outputs (emitted (deployContent props "WebsiteBucket" "Distribution")))
    with (@nil (string * CfnOutputProps)).
  2:{ unfold deployContent.
      destruct (codeSourcePath props) as [p|]; [destruct (JS.truthy_string p)|];
        reflexivity. }
  reflexivity.
Qed.

(** *** The claims about SecureWebsite *)

(** C1, evaluated on the code. The claim: the retention policy of the
    content store defaults to destroy, and whenever the resolved policy
    is destroy the objects of the store are purged on teardown. For the
    props of [SimpleWebsiteStack], which leave [removalPolicy] unset, the
    website bucket is declared with removal policy DESTROY and with
    [autoDeleteObjects] false: the purge flag is computed from the raw
    property, not from the resolved policy. *)
Theorem unset_removalPolicy_not_purged :
  removalPolicy simpleWebsiteProps = None /\
  exists b,
    bucketOf "WebsiteBucket" (graph simpleWebsiteProps) = Some b /\
    b_removalPolicy b = DESTROY /\
    b_autoDeleteObjects b = false.
Proof.
  split; [reflexivity|].
  rewrite bucketOf_WebsiteBucket. eexists. repeat split.
Qed.

(** What the code does for every spec: the purge flag is set exactly when
    the spec names DESTROY itself. *)
Lemma websiteBucket_purge_flag props :
  exists b,
    bucketOf "WebsiteBucket" (graph props) = Some b /\
    b_removalPolicy b = JS.or_object (removalPolicy props) DESTROY /\
    b_autoDeleteObjects b = is_DESTROY (removalPolicy props).
Proof. rewrite bucketOf_WebsiteBucket. eexists. repeat split. Qed.

(** C2. For every spec that omits [wafRules] and does not set [enableWaf]
    to false, the web ACL of the construct has exactly four rules, with
    priorities 1, 2, 3, 10 in that order: the managed rule groups common,
    known-bad-inputs and Linux, then a rate limit with ceiling 2000,
    each with the block action. *)
Theorem default_firewall_rules (props : SecureWebsiteProps) :
  wafRules props = None ->
  enableWaf props <> Some false ->
  webAcl (object props) = Some "WebACL" /\
  exists acl,
    webAclOf "WebACL" (graph props) = Some acl /\
    length (acl_rules acl) = 4 /\
    map rp_priority (acl_rules acl) = [1; 2; 3; 10]%Z /\
    map rp_action (acl_rules acl) = [block; block; block; block] /\
    map rp_statement (acl_rules acl) =
      [ managedRuleGroupStatement "AWS" "AWSManagedRulesCommonRuleSet";
        managedRuleGroupStatement "AWS" "AWSManagedRulesKnownBadInputsRuleSet";
        managedRuleGroupStatement "AWS" "AWSManagedRulesLinuxRuleSet";
        rateBasedStatement 2000 "IP" ].
Proof.
  intros Hrules Hwaf.
  assert (Hon : not_false (enableWaf props) = true).
  { destruct (enableWaf props) as [[|]|]; try reflexivity. now elim Hwaf. }
  rewrite object_eq, webAclOf_WebACL. cbn [thisOf webAcl].
  rewrite result_createFirewall, Hon, Hrules.
  split; [reflexivity|].
  eexists. split; [reflexivity|]. repeat split.
Qed.

Lemma default_firewall_rules_witness :
  webAcl (object simpleWebsiteProps) = Some "WebACL".
Proof.
  apply (default_firewall_rules simpleWebsiteProps); [reflexivity | discriminate].
Defined.

(** C5. The action mapping is total on strings: ALLOW, BLOCK and COUNT
    map to allow, block and count, and every other string maps to allow
    as well. *)
Theorem createWafAction_total :
  createWafAction "ALLOW" = allow /\
  createWafAction "BLOCK" = block /\
  createWafAction "COUNT" = count /\
  forall action : string,
    action <> "ALLOW" -> action <> "BLOCK" -> action <> "COUNT" ->
    createWafAction action = allow.
Proof.
  repeat split.
  intros action Ha Hb Hc. unfold createWafAction.
  destruct (String.eqb_spec action "ALLOW"); [reflexivity|].
  destruct (String.eqb_spec action "BLOCK"); [contradiction|].
  destruct (String.eqb_spec action "COUNT"); [contradiction|reflexivity].
Qed.

Lemma createWafAction_total_witness : createWafAction "DENY" = allow.
Proof.
  apply (proj2 (proj2 (proj2 createWafAction_total))); discriminate.
Defined.

(** C6. For every spec with [enableWaf] set to false: the object has no
    web ACL, the graph contains no firewall resource (web ACL or address
    set), the distribution carries no web ACL id, and no output is the
    web ACL output or refers to the web ACL. *)
Theorem waf_disabled_no_firewall (props : SecureWebsiteProps) :
  enableWaf props = Some false ->
  webAcl (object props) = None /\
  (forall id r, In (id, r) (graph props) -> isFirewall r = false) /\
  webAclOf "WebACL" (graph props) = None /\
  (exists d, distributionOf "Distribution" (graph props) = Some d /\
             d_webAclId d = None) /\
  (forall id o, In (id, o) (outputs (graph props)) ->
                id <> "WebAclArn" /\ refersTo "WebACL" (out_value o) = false).
Proof.
  intro Hwaf.
  assert (Hnone : webAcl (object props) = None).
  { rewrite object_eq. cbn [thisOf webAcl].
    now rewrite result_createFirewall, Hwaf. }
  split; [exact Hnone|]. split; [|split; [|split]].
  - intros id r Hin.
    pose proof (no_firewall_in_graph props Hwaf) as Hall.
    rewrite forallb_forall in Hall. specialize (Hall _ Hin).
    simpl in Hall. now destruct (isFirewall r).
  - rewrite webAclOf_WebACL, Hwaf. reflexivity.
  - destruct (distributionOf_Distribution props) as (d & Hd & Hacl & _).
    exists d. split; [exact Hd|]. now rewrite Hacl, Hnone.
  - intros id o. rewrite outputs_graph. unfold createOutputs.
    rewrite object_eq in Hnone. rewrite Hnone.
    cbn [thisOf logsBucket]. rewrite result_createLogsBucket.
    destruct (JS.truthy_opt_bool (enableLogging props)); simpl; intro Hin;
      repeat (destruct Hin as [Hin|Hin];
              [injection Hin as <- <-; split; [discriminate|reflexivity]|]);
      contradiction.
Qed.

Lemma waf_disabled_no_firewall_witness :
  webAcl (object noFirewallProps) = None.
Proof.
  apply (waf_disabled_no_firewall noFirewallProps). reflexivity.
Defined.

(** The apex domain of a domain given by its labels. *)
Lemma getApexDomain_labels (labels : list string) :
  labels <> [] ->
  Forall (fun l => JS.isLabel "." l = true) labels ->
  getApexDomain (JS.join "." labels) = JS.join "." (JS.slice_last 2 labels).
Proof.
  intros Hne Hall. unfold getApexDomain.
  rewrite (split_join "." labels Hne Hall).
  destruct (Nat.leb_spec 2 (length labels)) as [_|Hlen]; [reflexivity|].
  destruct labels as [|l [|l' labels]]; [contradiction|reflexivity|].
  simpl in Hlen. lia.
Qed.

(** C8. When no zone id is given, the zone is looked up under the apex
    domain, which is the last two dot-separated labels of the domain name
    (the whole name when it has fewer); the apex of
    www.myadvancedsite.example.com is example.com. *)
Theorem apex_is_last_two_labels :
  (forall (props : SecureWebsiteProps) (labels : list string),
     hostedZoneId props = None ->
     labels <> [] ->
     Forall (fun l => JS.isLabel "." l = true) labels ->
     domainName props = JS.join "." labels ->
     hostedZone (object props) = "HostedZone" /\
     hostedZoneOf "HostedZone" (graph props) =
       Some (fromLookup (JS.join "." (JS.slice_last 2 labels)))) /\
  getApexDomain "www.myadvancedsite.example.com" = "example.com".
Proof.
  split; [|reflexivity].
  intros props labels Hzone Hne Hall Hdom.
  rewrite object_eq. split; [reflexivity|].
  rewrite <- (getApexDomain_labels labels Hne Hall), <- Hdom.
  unfold hostedZoneOf. rewrite graph_eq, findChild_app.
  unfold getHostedZone. rewrite Hzone. reflexivity.
Qed.

Lemma apex_is_last_two_labels_witness :
  hostedZoneOf "HostedZone" (graph simpleWebsiteProps) =
  Some (fromLookup "example.com").
Proof.
  apply (proj1 apex_is_last_two_labels simpleWebsiteProps
           ["mysite"; "example"; "com"]).
  - reflexivity.
  - discriminate.
  - repeat constructor.
  - reflexivity.
Defined.

Lemma constructor_errorDocument (e : option string) (props : SecureWebsiteProps) :
  constructor (with_errorDocument e props) = constructor props.
Proof. reflexivity. Qed.



Lemma statementOf_rate_nonzero (rule : WafRule) (n : Z) (k : string) :
  statementOf rule = rateBasedStatement n k -> n <> 0%Z.
Proof.
  unfold statementOf, createWafStatement.
  destruct (String.eqb (ruleType rule) "RATE_LIMIT").
  - cbn [ret fst]. intro H. injection H as Hn _. subst n.
    unfold JS.or_number, JS.truthy_number.
    destruct (JS.chain (configuration rule) limit) as [m|]; [|discriminate].
    destruct (Z.eqb_spec m 0); simpl; [discriminate|assumption].
  - destruct (String.eqb (ruleType rule) "MANAGED_RULE"); [discriminate|].
    destruct (String.eqb (ruleType rule) "GEO_BLOCK"); [discriminate|].
    destruct (String.eqb (ruleType rule) "IP_SET"); discriminate.
Qed.

(** C10. A rate limit rule with the explicit limit 0 resolves to a
    rate-based statement with ceiling 2000; one with a positive explicit
    limit n resolves to ceiling n; no statement the translator returns,
    and none in the web ACL of any spec, is rate-based with ceiling 0. *)
Theorem rate_limit_ceiling :
  (forall (rule : WafRule) (s : Graph) (cfg : WafRuleConfiguration),
     ruleType rule = "RATE_LIMIT" ->
     configuration rule = Some cfg ->
     limit cfg = Some 0%Z ->
     fst (createWafStatement rule s) = rateBasedStatement 2000 "IP") /\
  (forall (rule : WafRule) (s : Graph) (cfg : WafRuleConfiguration) (n : Z),
     ruleType rule = "RATE_LIMIT" ->
     configuration rule = Some cfg ->
     limit cfg = Some n ->
     (0 < n)%Z ->
     fst (createWafStatement rule s) = rateBasedStatement n "IP") /\
  (forall (rule : WafRule) (s : Graph) (n : Z) (k : string),
     fst (createWafStatement rule s) = rateBasedStatement n k -> n <> 0%Z) /\
  (forall (props : SecureWebsiteProps) (acl : CfnWebACLProps)
          (rp : RuleProperty) (n : Z) (k : string),
     webAclOf "WebACL" (graph props) = Some acl ->
     In rp (acl_rules acl) ->
     rp_statement rp = rateBasedStatement n k -> n <> 0%Z).
Proof.
  repeat split.
  - intros rule s cfg Htype Hcfg Hlimit.
    rewrite createWafStatement_frame. unfold statementOf, createWafStatement.
    now rewrite Htype, Hcfg; cbn; rewrite Hlimit.
  - intros rule s cfg n Htype Hcfg Hlimit Hpos.
    rewrite createWafStatement_frame. unfold statementOf, createWafStatement.
    rewrite Htype, Hcfg. cbn. rewrite Hlimit.
    unfold JS.or_number, JS.truthy_number.
    destruct (Z.eqb_spec n 0); [lia|reflexivity].
  - intros rule s n k. rewrite createWafStatement_frame.
    apply statementOf_rate_nonzero.
  - intros props acl rp n k Hacl Hin Hst.
    rewrite webAclOf_WebACL in Hacl.
    destruct (not_false (enableWaf props)); [|discriminate].
    injection Hacl as <-. cbn [webAclProps acl_rules] in Hin.
    apply in_map_iff in Hin. destruct Hin as (rule & <- & _).
    exact (statementOf_rate_nonzero rule n k Hst).
Qed.

Lemma rate_limit_ceiling_witness :
  fst (createWafStatement (rateLimitRule 0) []) = rateBasedStatement 2000 "IP" /\
  fst (createWafStatement (rateLimitRule 500) []) = rateBasedStatement 500 "IP".
Proof.
  split.
  - apply (proj1 rate_limit_ceiling (rateLimitRule 0) []
             {| limit := Some 0%Z; countryCodes := None;
                cfg_name := None; ipAddresses := None |});
      reflexivity.
  - apply (proj1 (proj2 rate_limit_ceiling) (rateLimitRule 500) []
             {| limit := Some 500%Z; countryCodes := None;
                cfg_name := None; ipAddresses := None |} 500%Z);
      [reflexivity | reflexivity | reflexivity | lia].
Defined.

End WebsiteFacts.

(** ** Objects used as maps *)

Section ObjectFacts.

Context {V : Type}.

Lemma get_absent (o : JS.Object V) (k : string) :
  ~ In k (JS.keys o) -> JS.get o k = None.
Proof.
  induction o as [|[k' v] o IH]; simpl; [reflexivity|].
  intro H. destruct (String.eqb_spec k k') as [->|_].
  - exfalso. apply H. now left.
  - apply IH. intro Hin. apply H. now right.
Qed.

Lemma get_present (o : JS.Object V) (k : string) (v : V) :
  JS.wf o -> In (k, v) (JS.entries o) -> JS.get o k = Some v.
Proof.
  unfold JS.wf, JS.entries.
  induction o as [|[k' v'] o IH]; simpl; [contradiction|].
  intros Hwf Hin. inversion Hwf as [|? ? Hnotin Hwf']; subst.
  destruct Hin as [Heq|Hin].
  - injection Heq as -> ->. now rewrite String.eqb_refl.
  - destruct (String.eqb_spec k k') as [->|_]; [|now apply IH].
    exfalso. apply Hnotin. change k' with (fst (k', v)). now apply in_map.
Qed.

End ObjectFacts.

Lemma string_app_nil_r (s : string) : (s ++ "")%string = s.
Proof. induction s as [|c s IH]; simpl; [reflexivity | now rewrite IH]. Qed.

Lemma string_app_assoc (a b c : string) :
  ((a ++ b) ++ c)%string = (a ++ b ++ c)%string.
Proof. induction a as [|x a IH]; simpl; [reflexivity | now rewrite IH]. Qed.

Lemma append_eqb_cancel (p a b : string) :
  String.eqb (p ++ a)%string (p ++ b)%string = String.eqb a b.
Proof.
  induction p as [|c p IH]; simpl; [reflexivity|].
  now rewrite Ascii.eqb_refl.
Qed.

(** Every element of a joined list occurs in the result. *)
Lemma join_mentions (sep : string) (l : list string) (k : string) :
  In k l -> AccountConfig.mentions (JS.join sep l) k.
Proof.
  unfold AccountConfig.mentions, JS.join.
  induction l as [|x l IH]; [contradiction|].
  intros [->|Hin].
  - destruct l as [|y l].
    + exists "", "". simpl. now rewrite string_app_nil_r.
    + exists "", (sep ++ String.concat sep (y :: l))%string. reflexivity.
  - destruct (IH Hin) as (before & after & Heq).
    destruct l as [|y l]; [contradiction|].
    exists (x ++ sep ++ before)%string, after.
    change (String.concat sep (x :: y :: l))
      with (x ++ sep ++ String.concat sep (y :: l))%string.
    rewrite Heq. now rewrite !string_app_assoc.
Qed.

Lemma mentions_after (prefix msg k : string) :
  AccountConfig.mentions msg k -> AccountConfig.mentions (prefix ++ msg) k.
Proof.
  intros (before & after & ->). exists (prefix ++ before)%string, after.
  now rewrite string_app_assoc.
Qed.

(** ** AccountConfigStack *)

Lemma existsb_eqb_In (x : string) (l : list string) :
  existsb (String.eqb x) l = true <-> In x l.
Proof.
  rewrite existsb_exists. split.
  - intros (y & Hin & Heq). apply String.eqb_eq in Heq. now subst.
  - intro Hin. exists x. split; [exact Hin | apply String.eqb_refl].
Qed.

Lemma existsb_eqb_notIn (x : string) (l : list string) :
  existsb (String.eqb x) l = false <-> ~ In x l.
Proof.
  rewrite <- existsb_eqb_In.
  destruct (existsb (String.eqb x) l); split; intro H;
    try reflexivity; try discriminate; try (intro; discriminate).
  exfalso. now apply H.
Qed.

Lemma distinct_NoDup (l : list string) : JS.distinct l = true -> NoDup l.
Proof.
  induction l as [|x l IH]; simpl; [constructor|].
  intro H. apply andb_prop in H as [Hx Hl]. constructor; [|now apply IH].
  apply negb_true_iff in Hx. now apply existsb_eqb_notIn.
Qed.

Lemma NoDup_snoc {A : Type} (l : list A) (x : A) :
  NoDup l -> ~ In x l -> NoDup (l ++ [x]).
Proof.
  intros Hnd Hx. apply NoDup_app; [exact Hnd | repeat constructor; intros [] |].
  intros a Ha [<-|[]]. exact (Hx Ha).
Qed.

Lemma NoDup_strings_dec (l : list string) : NoDup l \/ ~ NoDup l.
Proof.
  induction l as [|x l [IH|IH]].
  - left. constructor.
  - destruct (in_dec string_dec x l) as [Hin|Hout].
    + right. intro Hnd. inversion Hnd. contradiction.
    + left. now constructor.
  - right. intro Hnd. inversion Hnd. contradiction.
Qed.

Lemma set_absent {V : Type} (o : JS.Object V) (k : string) (v : V) :
  ~ In k (JS.keys o) -> JS.set o k v = o ++ [(k, v)].
Proof.
  induction o as [|[k' v'] o IH]; simpl; [reflexivity|].
  intro H. destruct (String.eqb_spec k k') as [->|_].
  - exfalso. apply H. now left.
  - rewrite IH; [reflexivity|]. intro Hin. apply H. now right.
Qed.

Lemma defaultsTo_or_string (a : option string) (d r : string) :
  JS.defaultsTo a d r -> JS.or_string a d = r.
Proof.
  intros [[-> Hne] | [[-> | ->] ->]]; try reflexivity.
  destruct r; [now elim Hne | reflexivity].
Qed.

Section AccountConfigFacts.

Import AccountConfig.

Context {number : Type}.
Context (JSON_stringify : JSON number -> string).
Context (process_cwd : string).
Context (path_join : string -> string -> string).
Context (readFileSync : string -> string + string).
Context (JSON_parse : string -> string + JS.Object (JS.Object (JSON number))).
Context (inheritedHas : string -> string -> bool).
Context (parameterHas : string -> bool).

Local Abbreviation Stack := (AccountConfigStack number).
Local Abbreviation newParameter := (newStringParameter number JSON_stringify).
Local Abbreviation uploadTurn := (uploadEntry number JSON_stringify).
Local Abbreviation new_AccountConfigStack :=
  (constructor number JSON_stringify process_cwd path_join readFileSync JSON_parse).
Local Abbreviation contextPath props :=
  (resolvedContextFilePath process_cwd path_join props).
Local Abbreviation contextOf props :=
  (readContext number readFileSync JSON_parse (contextPath props)).

(** *** Loops that declare constructs *)

Lemma withNode_node (this : Stack) : withNode (node this) this = this.
Proof. now destruct this. Qed.

Lemma andThen_Ok {A : Type} (r : Result A) : andThen r Ok = r.
Proof. now destruct r. Qed.

Lemma addChild_cases (id : string) (r : Resource) (this : Stack) :
  (exists error, addChild id r this = ThrowFromLibrary error) \/
  (exists n, addChild id r this = Ok (withNode n this)).
Proof.
  unfold addChild. cbv zeta.
  destruct (existsb _ _); [left | right]; eexists; reflexivity.
Qed.

Section Declarations.

Context {A : Type}.
Variable idOf : A -> string.
Variable resOf : A -> Resource.
Variable update : A -> Stack -> Stack.
Hypothesis update_node :
  forall x n this, update x (withNode n this) = withNode n (update x this).

Local Abbreviation turn := (declareThen idOf resOf update).
Local Abbreviation idsOf l := (map (fun x => Scope.sanitizeId (idOf x)) l).
Local Abbreviation childrenOf l :=
  (map (fun x => (Scope.sanitizeId (idOf x), resOf x)) l).

Lemma updates_node (l : list A) (n : Scope.t Resource) (this : Stack) :
  fold_left (fun acc x => update x acc) l (withNode n this)
  = withNode n (fold_left (fun acc x => update x acc) l this).
Proof.
  revert this. induction l as [|x l IH]; intro this; simpl; [reflexivity|].
  now rewrite update_node, IH.
Qed.

(** When the ids are new and pairwise distinct, every construct is
    declared and every update made. *)
Lemma forEach_declares (l : list A) (this : Stack) :
  NoDup (map fst (node this) ++ idsOf l) ->
  forEach turn l this
  = Ok (withNode (node this ++ childrenOf l)
          (fold_left (fun acc x => update x acc) l this)).
Proof.
  revert this. induction l as [|x l IH]; intros this Hnd; simpl.
  - now rewrite app_nil_r, withNode_node.
  - unfold declareThen at 1, addChild. cbv zeta.
    assert (Hnew : ~ In (Scope.sanitizeId (idOf x)) (map fst (node this))).
    { intro Hin. apply NoDup_remove_2 in Hnd. apply Hnd.
      apply in_or_app. now left. }
    apply existsb_eqb_notIn in Hnew. rewrite Hnew. simpl.
    rewrite update_node, IH.
    + cbn [withNode node]. rewrite updates_node. unfold withNode. simpl.
      now rewrite <- app_assoc.
    + cbn [withNode node]. rewrite map_app, <- app_assoc. exact Hnd.
Qed.

(** Otherwise the loop stops at the first id that is already taken. *)
Lemma forEach_duplicate (l : list A) (this : Stack) :
  NoDup (map fst (node this)) ->
  ~ NoDup (map fst (node this) ++ idsOf l) ->
  exists id,
    forEach turn l this = ThrowFromLibrary (DuplicateConstructId id) /\
    In id (idsOf l).
Proof.
  revert this. induction l as [|x l IH]; intros this Hthis Hdup; simpl.
  - exfalso. apply Hdup. simpl. now rewrite app_nil_r.
  - unfold declareThen at 1, addChild. cbv zeta.
    destruct (existsb (String.eqb (Scope.sanitizeId (idOf x))) (map fst (node this)))
      eqn:Hseen.
    + exists (Scope.sanitizeId (idOf x)). split; [reflexivity | now left].
    + apply existsb_eqb_notIn in Hseen. simpl. rewrite update_node.
      destruct (IH (withNode (node this ++ [(Scope.sanitizeId (idOf x), resOf x)])
                      (update x this))) as (id & Hthrow & Hin).
      * cbn [withNode node]. rewrite map_app. now apply NoDup_snoc.
      * cbn [withNode node]. rewrite map_app, <- app_assoc. exact Hdup.
      * exists id. split; [exact Hthrow | now right].
Qed.

End Declarations.

(** *** The two loops of the stack, as such loops *)

Lemma assignParameter_node (key : string) (p : StringParameter)
    (n : Scope.t Resource) (this : Stack) :
  assignParameter key p (withNode n this) = withNode n (assignParameter key p this).
Proof. unfold assignParameter. now destruct (String.eqb key "__proto__"). Qed.

Lemma upload_loop (prefix : string) (l : list (string * JSON number)) (this : Stack) :
  forEach (uploadTurn prefix) l this
  = forEach
      (declareThen (fun kv => ("Parameter" ++ capitalizeFirst (fst kv))%string)
         (fun kv => SsmStringParameter (newParameter prefix (fst kv) (snd kv)))
         (fun kv this => assignParameter (fst kv)
                           (newParameter prefix (fst kv) (snd kv)) this))
      l this.
Proof.
  revert this. induction l as [|[key value] l IH]; intro this; [reflexivity|].
  cbn [forEach]. unfold uploadEntry at 1, declareThen at 1. cbn [fst snd].
  destruct (addChild _ _ this); simpl; auto.
Qed.

Lemma createOutputs_loop (prefix : string) (this : Stack) :
  createOutputs prefix this
  = forEach (declareThen fst snd (fun _ this => this))
      (outputsToDeclare prefix this) this.
Proof.
  unfold createOutputs, outputsToDeclare, addOutput.
  cbn [app forEach]. unfold declareThen at 1 2 3. cbn [fst snd].
  rewrite !andThen_Ok.
  destruct (addChild_cases "AccountId"
              (CfnOutput {| out_value := [Scope.Lit (this_accountId this)];
                            out_description := "AWS Account ID" |}) this)
    as [(e1 & ->) | (n1 & ->)]; [reflexivity|].
  cbn [andThen]. unfold getAllConfigKeys.
  cbn [withNode config this_accountId parameters node].
  match goal with
  | |- andThen (addChild ?id ?r ?s) _ = _ =>
      destruct (addChild_cases id r s) as [(e2 & ->) | (n2 & ->)]; [reflexivity|]
  end.
  cbn [andThen withNode config this_accountId parameters node].
  match goal with
  | |- andThen (addChild ?id ?r ?s) _ = _ =>
      destruct (addChild_cases id r s) as [(e3 & ->) | (n3 & ->)]; [reflexivity|]
  end.
  cbn [andThen withNode config this_accountId parameters node].
  match goal with
  | |- forEach _ _ ?s = _ => generalize s
  end.
  unfold JS.entries.
  induction (parameters this) as [|e l IH]; intro s; [reflexivity|].
  cbn [map forEach]. unfold declareThen at 1. cbn [fst snd].
  rewrite andThen_Ok.
  destruct (addChild _ _ s); simpl; auto.
Qed.

(** *** The assignments of the first loop *)

Local Abbreviation notProto :=
  (fun kv : string * JSON number => negb (String.eqb (fst kv) "__proto__")).

Local Abbreviation assignments prefix l this :=
  (fold_left (fun acc (kv : string * JSON number) =>
                assignParameter (fst kv) (newParameter prefix (fst kv) (snd kv)) acc)
     l this).

Lemma assignments_keep (prefix : string) (l : list (string * JSON number))
    (this : Stack) :
  config (assignments prefix l this) = config this /\
  this_accountId (assignments prefix l this) = this_accountId this /\
  node (assignments prefix l this) = node this.
Proof.
  revert this. induction l as [|[key value] l IH]; intro this; simpl;
    [now repeat split|].
  destruct (IH (assignParameter key (newParameter prefix key value) this))
    as (Hc & Ha & Hn).
  rewrite Hc, Ha, Hn. unfold assignParameter.
  now destruct (String.eqb key "__proto__").
Qed.

Lemma assignments_parameters (prefix : string) (l : list (string * JSON number))
    (this : Stack) :
  NoDup (JS.keys (parameters this) ++ JS.keys l) ->
  parameters (assignments prefix l this)
  = parameters this
    ++ map (fun kv => (fst kv, newParameter prefix (fst kv) (snd kv)))
         (filter notProto l).
Proof.
  revert this. induction l as [|[key value] l IH]; intros this Hnd; simpl.
  - now rewrite app_nil_r.
  - assert (Habsent : ~ In key (JS.keys (parameters this))).
    { intro Hin. apply NoDup_remove_2 in Hnd. apply Hnd.
      apply in_or_app. now left. }
    rewrite IH; unfold assignParameter;
      destruct (String.eqb key "__proto__"); cbn [parameters negb map].
    + reflexivity.
    + rewrite (set_absent _ _ _ Habsent). now rewrite <- app_assoc.
    + now apply NoDup_remove_1 in Hnd.
    + rewrite (set_absent _ _ _ Habsent).
      unfold JS.keys in *. rewrite map_app, <- app_assoc. exact Hnd.
Qed.

Lemma assignments_prototype (prefix : string) (l : list (string * JSON number))
    (this : Stack) :
  ~ In "__proto__" (JS.keys l) ->
  parametersPrototype (assignments prefix l this) = parametersPrototype this.
Proof.
  revert this. induction l as [|[key value] l IH]; intros this Hnot; simpl;
    [reflexivity|].
  rewrite IH by (intro Hin; apply Hnot; now right).
  unfold assignParameter.
  destruct (String.eqb_spec key "__proto__") as [->|_]; [|reflexivity].
  exfalso. apply Hnot. now left.
Qed.

(** *** The stack a resolution returns *)

Lemma constructsFor_ids (id prefix : string) (cfg : JS.Object (JSON number)) :
  map fst (constructsFor number JSON_stringify id prefix cfg)
  = constructIdsFor (JS.keys cfg).
Proof.
  unfold constructsFor, constructIdsFor, JS.keys.
  rewrite !map_app, !map_map. cbn [map fst].
  do 2 f_equal. induction cfg as [|[key value] cfg IH]; [reflexivity|].
  cbn [filter map fst]. destruct (String.eqb key "__proto__"); cbn [negb map fst];
    now rewrite IH.
Qed.

(** The stack after the first loop, and the outputs it is about to
    declare. *)
Local Abbreviation parametersFor prefix cfg :=
  (map (fun kv : string * JSON number =>
          (parameterId (fst kv), SsmStringParameter (newParameter prefix (fst kv) (snd kv))))
     cfg).

Local Abbreviation started id cfg :=
  {| config := ConfigRecord cfg%list; this_accountId := id;
     parameters := []; parametersPrototype := None; node := [] |}.

Local Abbreviation uploaded id prefix cfg :=
  (withNode (parametersFor prefix cfg) (assignments prefix cfg (started id cfg))).

Lemma uploaded_parameters (id prefix : string) (cfg : JS.Object (JSON number)) :
  JS.wf cfg ->
  parameters (uploaded id prefix cfg)
  = map (fun kv => (fst kv, newParameter prefix (fst kv) (snd kv)))
      (filter notProto cfg).
Proof.
  intro Hwf. cbn [withNode parameters]. now rewrite assignments_parameters.
Qed.

Lemma upload_outcome (id prefix : string) (cfg : JS.Object (JSON number)) :
  (NoDup (map parameterId (JS.keys cfg)) ->
   forEach (uploadTurn prefix) cfg (started id cfg) = Ok (uploaded id prefix cfg)) /\
  (~ NoDup (map parameterId (JS.keys cfg)) ->
   exists taken,
     forEach (uploadTurn prefix) cfg (started id cfg)
     = ThrowFromLibrary (DuplicateConstructId taken) /\
     In taken (map parameterId (JS.keys cfg))).
Proof.
  assert (Hids : map (fun kv : string * JSON number =>
                        Scope.sanitizeId ("Parameter" ++ capitalizeFirst (fst kv))) cfg
                 = map parameterId (JS.keys cfg)).
  { unfold JS.keys. now rewrite map_map. }
  rewrite upload_loop. split; intro Hnd.
  - rewrite forEach_declares.
    + reflexivity.
    + intros. apply assignParameter_node.
    + cbn [node map app]. now rewrite Hids.
  - rewrite <- Hids. apply forEach_duplicate.
    + intros. apply assignParameter_node.
    + constructor.
    + cbn [node map app]. now rewrite Hids.
Qed.

Lemma outputs_after_upload (id prefix : string) (cfg : JS.Object (JSON number)) :
  JS.wf cfg ->
  node (uploaded id prefix cfg)
  ++ map (fun x : string * Resource => (Scope.sanitizeId (fst x), snd x))
       (outputsToDeclare prefix (uploaded id prefix cfg))
  = constructsFor number JSON_stringify id prefix cfg.
Proof.
  intro Hwf. unfold outputsToDeclare, constructsFor, getAllConfigKeys, JS.entries.
  rewrite (uploaded_parameters id prefix cfg Hwf).
  cbn [withNode node config this_accountId].
  destruct (assignments_keep prefix cfg (started id cfg)) as (-> & -> & _).
  cbn [config this_accountId configEntries]. unfold JS.entries, JS.keys.
  rewrite !map_app, !map_map. reflexivity.
Qed.

(** What the constructor does once the record of the account is read:
    with distinct ids every construct is declared, otherwise the
    construct library throws at the first id that is taken. *)
Lemma declarations_outcome (id prefix : string) (cfg : JS.Object (JSON number)) :
  JS.wf cfg ->
  let outcome :=
    andThen (uploadConfigToParameterStore number JSON_stringify prefix (started id cfg))
            (createOutputs prefix) in
  (NoDup (constructIdsFor (JS.keys cfg)) ->
   exists stack,
     outcome = Ok stack /\
     config stack = ConfigRecord cfg /\
     this_accountId stack = id /\
     parameters stack
       = map (fun kv => (fst kv, newParameter prefix (fst kv) (snd kv)))
           (filter notProto cfg) /\
     (~ In "__proto__" (JS.keys cfg) -> parametersPrototype stack = None) /\
     node stack = constructsFor number JSON_stringify id prefix cfg) /\
  (~ NoDup (constructIdsFor (JS.keys cfg)) ->
   exists taken,
     outcome = ThrowFromLibrary (DuplicateConstructId taken) /\
     In taken (constructIdsFor (JS.keys cfg))).
Proof.
  intros Hwf outcome. subst outcome.
  unfold uploadConfigToParameterStore. cbn [config configEntries].
  unfold JS.entries.
  destruct (upload_outcome id prefix cfg) as [Hupload Hcollide].
  pose proof (outputs_after_upload id prefix cfg Hwf) as Hall.
  pose proof (constructsFor_ids id prefix cfg) as Hids.
  rewrite <- Hall, map_app, map_map in Hids. cbn [fst] in Hids.
  split.
  - intro Hnd. rewrite Hupload
      by (unfold constructIdsFor in Hnd; now apply NoDup_app_remove_r in Hnd).
    cbn [andThen]. rewrite createOutputs_loop, forEach_declares.
    + eexists. split; [reflexivity|].
      rewrite updates_node by reflexivity.
      cbn [withNode config this_accountId parameters parametersPrototype node].
      assert (Hsame : forall (l : list (string * Resource)) (s : Stack),
                 fold_left (fun acc _ => acc) l s = s).
      { induction l as [|x l IH]; intro s; simpl; auto. }
      rewrite Hsame.
      destruct (assignments_keep prefix cfg (started id cfg)) as (Hc & Ha & _).
      split; [exact Hc|]. split; [exact Ha|].
      split; [now rewrite assignments_parameters|].
      split; [intro Hnot; now rewrite assignments_prototype|].
      exact Hall.
    + reflexivity.
    + cbn [fst]. now rewrite Hids.
  - intro Hdup.
    destruct (NoDup_strings_dec (map parameterId (JS.keys cfg))) as [Hnd|Hnd].
    + rewrite (Hupload Hnd). cbn [andThen]. rewrite createOutputs_loop.
      destruct (forEach_duplicate fst snd (fun _ this => this)
                  (fun _ _ _ => eq_refl)
                  (outputsToDeclare prefix (uploaded id prefix cfg))
                  (uploaded id prefix cfg)) as (taken & Hthrow & Hin).
      * cbn [withNode node]. rewrite map_map. cbn [fst].
        unfold JS.keys in Hnd. now rewrite map_map in Hnd.
      * cbn [fst]. now rewrite Hids.
      * exists taken. split; [exact Hthrow|].
        rewrite <- Hids. apply in_or_app. now right.
    + destruct (Hcollide Hnd) as (taken & -> & Hin).
      exists taken. split; [reflexivity|].
      unfold constructIdsFor. apply in_or_app. now left.
Qed.

Lemma constructor_of_record (stackAccount : string) (props : AccountConfigStackProps)
    (accountsContext : JS.Object (JS.Object (JSON number)))
    (cfg : JS.Object (JSON number)) (id prefix : string) :
  contextOf props = inr accountsContext ->
  JS.defaultsTo (accountId props) stackAccount id ->
  JS.defaultsTo (parameterPrefix props) ("/account-config/" ++ id) prefix ->
  JS.get accountsContext id = Some cfg ->
  new_AccountConfigStack stackAccount props
  = andThen (uploadConfigToParameterStore number JSON_stringify prefix (started id cfg))
            (createOutputs prefix).
Proof.
  intros Hctx Hid Hprefix Hget.
  unfold constructor, resolvedParameterPrefix, resolvedAccountId. cbv zeta.
  rewrite (defaultsTo_or_string _ _ _ Hid), (defaultsTo_or_string _ _ _ Hprefix).
  rewrite Hctx. unfold accountConfigOf, JS.read, AccountConfig.
  now rewrite Hget.
Qed.

(** The stack of a record whose ids are distinct. *)
Lemma constructor_fields (stackAccount : string) (props : AccountConfigStackProps)
    (accountsContext : JS.Object (JS.Object (JSON number)))
    (cfg : JS.Object (JSON number)) (id prefix : string) :
  contextOf props = inr accountsContext ->
  JS.defaultsTo (accountId props) stackAccount id ->
  JS.defaultsTo (parameterPrefix props) ("/account-config/" ++ id) prefix ->
  JS.get accountsContext id = Some cfg ->
  JS.wf cfg ->
  NoDup (constructIdsFor (JS.keys cfg)) ->
  exists stack,
    new_AccountConfigStack stackAccount props = Ok stack /\
    config stack = ConfigRecord cfg /\
    this_accountId stack = id /\
    parameters stack
      = map (fun kv => (fst kv, newParameter prefix (fst kv) (snd kv)))
          (filter notProto cfg) /\
    (~ In "__proto__" (JS.keys cfg) -> parametersPrototype stack = None) /\
    node stack = constructsFor number JSON_stringify id prefix cfg.
Proof.
  intros Hctx Hid Hprefix Hget Hwf Hnd.
  rewrite (constructor_of_record _ _ _ _ _ _ Hctx Hid Hprefix Hget).
  now apply (declarations_outcome id prefix cfg Hwf).
Qed.

(** *** Entries at a path *)

Lemma published_constructsFor (id prefix : string) (cfg : JS.Object (JSON number)) :
  flat_map (fun c : string * Resource =>
              match snd c with
              | SsmStringParameter p => [p]
              | CfnOutput _ => []
              end) (constructsFor number JSON_stringify id prefix cfg)
  = map (fun kv => newParameter prefix (fst kv) (snd kv)) cfg.
Proof.
  unfold constructsFor. rewrite !flat_map_app.
  assert (Hout : forall l : list (string * JSON number),
            flat_map (fun c : string * Resource =>
                        match snd c with
                        | SsmStringParameter p => [p]
                        | CfnOutput _ => []
                        end)
              (map (fun kv : string * JSON number =>
                      (arnOutputId (fst kv),
                       CfnOutput {| out_value := [Scope.Token (parameterId (fst kv))
                                                    Scope.ParameterArn];
                                    out_description :=
                                      ("Parameter Store ARN for " ++ fst kv)%string |}))
                 l) = []).
  { induction l as [|kv l IH]; [reflexivity | exact IH]. }
  rewrite Hout. cbn [flat_map snd app]. rewrite app_nil_r.
  induction cfg as [|kv l IH]; [reflexivity|]. simpl. now rewrite IH.
Qed.

Lemma entries_elsewhere (prefix key : string) (l : list (string * JSON number)) :
  ~ In key (JS.keys l) ->
  filter (fun p => String.eqb (parameterName p) (prefix ++ "/" ++ key))
         (map (fun kv => newParameter prefix (fst kv) (snd kv)) l) = [].
Proof.
  induction l as [|[k v] l IH]; intro Hnotin; [reflexivity|].
  cbn [map filter fst snd newStringParameter parameterName].
  rewrite !append_eqb_cancel.
  destruct (String.eqb_spec k key) as [->|_].
  - exfalso. apply Hnotin. now left.
  - apply IH. intro Hin. apply Hnotin. now right.
Qed.

Lemma entries_at_key (prefix key : string) (value : JSON number)
    (l : list (string * JSON number)) :
  JS.wf l -> In (key, value) l ->
  filter (fun p => String.eqb (parameterName p) (prefix ++ "/" ++ key))
         (map (fun kv => newParameter prefix (fst kv) (snd kv)) l)
  = [newParameter prefix key value].
Proof.
  unfold JS.wf.
  induction l as [|[k v] l IH]; intros Hwf Hin; [contradiction|].
  inversion Hwf as [|? ? Hnotin Hwf']; subst.
  cbn [map filter fst snd].
  change (parameterName (newParameter prefix k v)) with (prefix ++ "/" ++ k)%string.
  rewrite !append_eqb_cancel.
  destruct Hin as [Heq|Hin].
  - injection Heq as -> ->. rewrite String.eqb_refl.
    now rewrite entries_elsewhere.
  - destruct (String.eqb_spec k key) as [->|_]; [|now apply IH].
    exfalso. apply Hnotin. change key with (fst (key, value)). now apply in_map.
Qed.

(** *** The claims about AccountConfigStack *)

(** C3, for the records whose keys give pairwise distinct construct ids
    and whose parameters [ssm.StringParameter] accepts. For every such
    parsed account record and every key of it, the stack
    publishes exactly one entry at the path prefix/key, where the prefix
    is [parameterPrefix] when that is a non-empty string and
    /account-config/ followed by the account id otherwise; a string value
    is published as it is and any other value is serialized first. For a
    source in which account 123456789012 maps to the record with stage dev
    and zone dev.example.com, resolution with the default prefix publishes
    exactly the two entries /account-config/123456789012/stage and
    /account-config/123456789012/zone, and [getConfigValue] of stage
    returns dev. *)
Theorem published_entries_distinct_ids :
  (forall (stackAccount : string) (props : AccountConfigStackProps)
          (accountsContext : JS.Object (JS.Object (JSON number)))
          (cfg : JS.Object (JSON number)) (id prefix : string),
     contextOf props = inr accountsContext ->
     JS.defaultsTo (accountId props) stackAccount id ->
     JS.defaultsTo (parameterPrefix props) ("/account-config/" ++ id) prefix ->
     JS.get accountsContext id = Some cfg ->
     JS.wf cfg ->
     NoDup (constructIdsFor (JS.keys cfg)) ->
     (forall key value,
        In (key, value) (JS.entries cfg) ->
        accepted (newParameter prefix key value) = true) ->
     exists stack,
       new_AccountConfigStack stackAccount props = Ok stack /\
       config stack = ConfigRecord cfg /\
       map parameterName (published stack) =
         map (fun key => prefix ++ "/" ++ key)%string (JS.keys cfg) /\
       forall key value,
         In (key, value) (JS.entries cfg) ->
         exists p,
           entriesAt (prefix ++ "/" ++ key) stack = [p] /\
           stringValue p = match value with
                           | JString text => text
                           | _ => JSON_stringify value
                           end) /\
  (forall (stackAccount : string) (props : AccountConfigStackProps)
          (accountsContext : JS.Object (JS.Object (JSON number))),
     contextOf props = inr accountsContext ->
     JS.defaultsTo (accountId props) stackAccount "123456789012" ->
     parameterPrefix props = None \/ parameterPrefix props = Some "" ->
     JS.get accountsContext "123456789012" =
       Some [("stage", JString "dev"); ("zone", JString "dev.example.com")] ->
     exists stack,
       new_AccountConfigStack stackAccount props = Ok stack /\
       map (fun p => (parameterName p, stringValue p)) (published stack) =
         [ ("/account-config/123456789012/stage", "dev");
           ("/account-config/123456789012/zone", "dev.example.com") ] /\
       getConfigValue inheritedHas stack "stage" None
       = Some (FromDocument (JString "dev"))).
Proof.
  split.
  - intros stackAccount props accountsContext cfg id prefix
      Hctx Hid Hprefix Hget Hwf Hnd _.
    destruct (constructor_fields _ _ _ _ _ _ Hctx Hid Hprefix Hget Hwf Hnd)
      as (stack & Hok & Hcfg & _ & _ & _ & Hnode).
    assert (Hpub : published stack
                   = map (fun kv => newParameter prefix (fst kv) (snd kv)) cfg).
    { unfold published. rewrite Hnode. apply published_constructsFor. }
    exists stack. split; [exact Hok|]. split; [exact Hcfg|]. split.
    + rewrite Hpub. unfold JS.keys. rewrite !map_map. reflexivity.
    + intros key value Hin. exists (newParameter prefix key value). split.
      * unfold entriesAt. rewrite Hpub. now apply entries_at_key.
      * reflexivity.
  - intros stackAccount props accountsContext Hctx Hid Hprefix Hget.
    destruct (constructor_fields stackAccount props accountsContext
                [("stage", JString "dev"); ("zone", JString "dev.example.com")]
                "123456789012" "/account-config/123456789012" Hctx Hid)
      as (stack & Hok & Hcfg & _ & _ & _ & Hnode).
    + right. split; [exact Hprefix | reflexivity].
    + exact Hget.
    + now apply distinct_NoDup.
    + now apply distinct_NoDup.
    + exists stack. split; [exact Hok|]. split.
      * unfold published. rewrite Hnode. reflexivity.
      * unfold getConfigValue, configValue. rewrite Hcfg. reflexivity.
Qed.



End AccountConfigFacts.

(** Against C3 as it is stated: for the record with two keys that differ
    in the case of their first letter only, both parameters ask for the id
    ParameterStage, the second declaration throws, and no entry is
    published. *)
Lemma colliding_keys_throw :
  JS.wf AccountConfig.collidingRecord /\
  AccountConfig.collidingStack
  = AccountConfig.ThrowFromLibrary (AccountConfig.DuplicateConstructId "ParameterStage").
Proof.
  split; [|reflexivity].
  unfold JS.wf. simpl. repeat constructor; simpl; intuition discriminate.
Qed.

Lemma published_entries_distinct_ids_witness :
  (exists stack,
     AccountConfig.exampleStack "123456789012" = AccountConfig.Ok stack /\
     AccountConfig.config stack
     = AccountConfig.ConfigRecord AccountConfig.exampleRecord /\
     map AccountConfig.parameterName (AccountConfig.published stack) =
       ["/account-config/123456789012/stage"; "/account-config/123456789012/zone"]) /\
  (exists stack,
     AccountConfig.exampleStack "123456789012" = AccountConfig.Ok stack /\
     map (fun p => (AccountConfig.parameterName p, AccountConfig.stringValue p))
         (AccountConfig.published stack) =
       [ ("/account-config/123456789012/stage", "dev");
         ("/account-config/123456789012/zone", "dev.example.com") ] /\
     AccountConfig.getConfigValue (fun _ _ => false) stack "stage" None
     = Some (AccountConfig.FromDocument (AccountConfig.JString "dev"))).
Proof.
  pose proof (published_entries_distinct_ids (number := Z) (fun _ => "null") "/app"
                (fun dir file => (dir ++ "/" ++ file)%string)
                (fun _ => inr "{}") (fun _ => inr AccountConfig.exampleContext)
                (fun _ _ => false))
    as [Hgeneral Hexample].
  split.
  - destruct (Hgeneral "123456789012" AccountConfig.exampleProps
                AccountConfig.exampleContext AccountConfig.exampleRecord
                "123456789012" "/account-config/123456789012")
      as (stack & Hok & Hcfg & Hnames & _).
    + reflexivity.
    + right. split; [now left | reflexivity].
    + right. split; [now left | reflexivity].
    + reflexivity.
    + unfold JS.wf. simpl. repeat constructor; simpl; intuition discriminate.
    + vm_compute. repeat constructor; simpl; intuition discriminate.
    + intros key value [H|[H|[]]]; injection H as <- <-; reflexivity.
    + exists stack. split; [exact Hok|]. split; [exact Hcfg|]. exact Hnames.
  - apply (Hexample "123456789012" AccountConfig.exampleProps
             AccountConfig.exampleContext); try reflexivity.
    + right. split; [now left | reflexivity].
    + now left.
Defined.





(** * Further properties *)

(** ** SecureWebsite: the rest of the construct *)

Section WebsiteInventory.

Import Scope Website.

(** *** The translator, rule by rule *)

Lemma ipSetsOf_eq (rule : WafRule) :
  ipSetsOf rule =
  if isIpSetRule rule
  then [(ipSetId rule,
         CfnIPSet {| ips_scope := "CLOUDFRONT";
                     ips_ipAddressVersion := "IPV4";
                     ips_addresses :=
                       JS.or_object (JS.chain (configuration rule) ipAddresses) [] |})]
  else [].
Proof.
  unfold ipSetsOf, isIpSetRule, createWafStatement.
  destruct (String.eqb_spec (ruleType rule) "RATE_LIMIT") as [->|_]; [reflexivity|].
  destruct (String.eqb_spec (ruleType rule) "MANAGED_RULE") as [->|_]; [reflexivity|].
  destruct (String.eqb_spec (ruleType rule) "GEO_BLOCK") as [->|_]; [reflexivity|].
  destruct (String.eqb (ruleType rule) "IP_SET"); reflexivity.
Qed.

Lemma statementOf_ipSet (rule : WafRule) :
  isIpSetRule rule = true ->
  statementOf rule = ipSetReferenceStatement [Token (ipSetId rule) AttrArn].
Proof.
  unfold statementOf, isIpSetRule, createWafStatement. intro Hip.
  apply String.eqb_eq in Hip. rewrite Hip. reflexivity.
Qed.

Lemma statementOf_not_ipSet (rule : WafRule) :
  isIpSetRule rule = false ->
  match statementOf rule with
  | ipSetReferenceStatement _ => False
  | _ => True
  end.
Proof.
  unfold statementOf, isIpSetRule, createWafStatement. intro Hip. rewrite Hip.
  destruct (String.eqb (ruleType rule) "RATE_LIMIT"); [exact I|].
  destruct (String.eqb (ruleType rule) "MANAGED_RULE"); [exact I|].
  destruct (String.eqb (ruleType rule) "GEO_BLOCK"); exact I.
Qed.

Lemma ipSets_flat_map (rules : list WafRule) :
  flat_map ipSetsOf rules =
  map (fun rule =>
         (ipSetId rule,
          CfnIPSet {| ips_scope := "CLOUDFRONT";
                      ips_ipAddressVersion := "IPV4";
                      ips_addresses :=
                        JS.or_object (JS.chain (configuration rule) ipAddresses) [] |}))
      (filter isIpSetRule rules).
Proof.
  induction rules as [|rule rules IH]; [reflexivity|].
  simpl. rewrite ipSetsOf_eq, IH.
  destruct (isIpSetRule rule); reflexivity.
Qed.

(** *** The parts of the graph in closed form *)

Lemma emitted_getHostedZone props :
  exists source, emitted (getHostedZone props) = [("HostedZone", HostedZone source)].
Proof.
  unfold getHostedZone.
  destruct (hostedZoneId props) as [z|]; [destruct (JS.truthy_string z)|];
    eexists; reflexivity.
Qed.

Lemma emitted_firewall props :
  emitted (createFirewall props) =
  if not_false (enableWaf props)
  then flat_map ipSetsOf (rulesOf props)
       ++ [("WebACL", CfnWebACL (webAclProps (rulesOf props)))]
  else [].
Proof.
  rewrite emitted_createFirewall.
  destruct (not_false (enableWaf props)); [|reflexivity].
  apply emitted_createWebAcl.
Qed.

Lemma emitted_deployContent props b d :
  emitted (deployContent props b d) =
  if hasSource props
  then [("WebsiteDeployment",
         BucketDeployment {|
           bd_sources := [asset (JS.or_string (codeSourcePath props) "")];
           bd_destinationBucket := b;
           bd_distribution := d;
           bd_distributionPaths := ["/*"];
           bd_prune := true;
           bd_retainOnDelete := false |})]
  else [].
Proof.
  unfold deployContent, hasSource.
  destruct (codeSourcePath props) as [[|c p]|]; reflexivity.
Qed.

(** The ids of the graph, in order. *)
Lemma ids_graph props :
  ids (graph props) =
  ["HostedZone"; "Certificate"; "WebsiteBucket"]
  ++ (if JS.truthy_opt_bool (enableLogging props) then ["LogsBucket"] else [])
  ++ ["OAC"]
  ++ (if not_false (enableWaf props)
      then map ipSetId (filter isIpSetRule (rulesOf props)) ++ ["WebACL"]
      else [])
  ++ ["Distribution"; "WebsiteBucket/Policy"; "ARecord"; "AaaaRecord"]
  ++ (if hasSource props then ["WebsiteDeployment"] else [])
  ++ ["WebsiteUrl"; "BucketName"; "DistributionId"; "CertificateArn"]
  ++ (if not_false (enableWaf props) then ["WebAclArn"] else [])
  ++ (if JS.truthy_opt_bool (enableLogging props) then ["LogsBucketName"] else []).
Proof.
  unfold ids. rewrite graph_eq, !map_app.
  destruct (emitted_getHostedZone props) as (source & ->).
  rewrite emitted_firewall, emitted_deployContent.
  unfold createOutputs. cbn [thisOf webAcl logsBucket].
  rewrite result_createFirewall, result_createLogsBucket.
  unfold createLogsBucket.
  destruct (JS.truthy_opt_bool (enableLogging props)),
           (not_false (enableWaf props)), (hasSource props);
    cbn -[filter rulesOf ipSetId];
    rewrite ?map_app, ?ipSets_flat_map, ?map_map; cbn -[filter rulesOf ipSetId];
    rewrite <- ?app_assoc; reflexivity.
Qed.

(** *** Lists without repetition *)

Lemma NoDup_insert {A : Type} (l1 m l2 : list A) :
  NoDup (l1 ++ l2) -> NoDup m ->
  (forall x, In x m -> ~ In x (l1 ++ l2)) ->
  NoDup (l1 ++ m ++ l2).
Proof.
  intros H12 Hm Hdisj. induction l1 as [|a l1 IH]; simpl in *.
  - apply NoDup_app; [exact Hm | exact H12 | exact Hdisj].
  - inversion H12 as [|? ? Ha H12']; subst. constructor.
    + rewrite !in_app_iff. intros [Hin|[Hin|Hin]].
      * apply Ha. apply in_or_app. now left.
      * apply (Hdisj a Hin). now left.
      * apply Ha. apply in_or_app. now right.
    + apply IH; [exact H12'|].
      intros x Hx Hin. apply (Hdisj x Hx). now right.
Qed.

Lemma NoDup_middle {A : Type} (l1 m l2 : list A) :
  NoDup (l1 ++ m ++ l2) -> NoDup m.
Proof.
  intro H. apply NoDup_app_remove_l in H. now apply NoDup_app_remove_r in H.
Qed.

Lemma ipSetIds_NoDup (rules : list WafRule) :
  NoDup (map ipSetId rules) <-> NoDup (map name rules).
Proof.
  induction rules as [|rule rules IH]; simpl; [split; constructor|].
  rewrite !NoDup_cons_iff, IH.
  assert (Hin : In (ipSetId rule) (map ipSetId rules) <-> In (name rule) (map name rules)).
  { rewrite !in_map_iff. split; intros (r & Heq & Hr); exists r; split; trivial.
    - unfold ipSetId in Heq. simpl in Heq. now repeat injection Heq as Heq.
    - unfold ipSetId. now rewrite Heq. }
  now rewrite Hin.
Qed.

Lemma ipSetIds_prefixed (rules : list WafRule) (x : string) :
  In x (map ipSetId rules) -> String.prefix "IPSet-" x = true.
Proof.
  rewrite in_map_iff. intros (rule & <- & _). unfold ipSetId. simpl.
  now destruct (name rule).
Qed.

Lemma literal_not_prefixed (l : list string) (x : string) :
  forallb (fun y => negb (String.prefix "IPSet-" y)) l = true ->
  In x l -> String.prefix "IPSet-" x = false.
Proof.
  intros Hall Hin. rewrite forallb_forall in Hall.
  specialize (Hall x Hin). now apply negb_true_iff in Hall.
Qed.

(** The ids are distinct exactly when the address-set rules have distinct
    names. *)
Lemma ids_distinct_iff (props : SecureWebsiteProps) :
  NoDup (ids (graph props)) <->
  (enableWaf props <> Some false ->
   NoDup (map name (filter isIpSetRule (rulesOf props)))).
Proof.
  rewrite ids_graph.
  assert (Hwaf : enableWaf props <> Some false <-> not_false (enableWaf props) = true).
  { destruct (enableWaf props) as [[|]|]; simpl; split; intro H;
      try reflexivity; try discriminate; now elim H. }
  rewrite Hwaf.
  destruct (not_false (enableWaf props)).
  - rewrite <- ipSetIds_NoDup.
    set (m := map ipSetId (filter isIpSetRule (rulesOf props))).
    destruct (JS.truthy_opt_bool (enableLogging props)), (hasSource props);
      cbn [app]; rewrite <- ?app_assoc; cbn [app];
      (split;
       [ intros H _;
         match type of H with
         | NoDup (?a :: ?b :: ?c :: ?d :: ?e :: m ++ ?r) =>
             apply (NoDup_middle [a; b; c; d; e] m r H)
         | NoDup (?a :: ?b :: ?c :: ?d :: m ++ ?r) =>
             apply (NoDup_middle [a; b; c; d] m r H)
         end
       | intro H; specialize (H eq_refl);
         match goal with
         | |- NoDup (?a :: ?b :: ?c :: ?d :: ?e :: m ++ ?r) =>
             apply (NoDup_insert [a; b; c; d; e] m r)
         | |- NoDup (?a :: ?b :: ?c :: ?d :: m ++ ?r) =>
             apply (NoDup_insert [a; b; c; d] m r)
         end;
         [ apply distinct_NoDup; reflexivity
         | exact H
         | intros x Hx Hin;
           apply ipSetIds_prefixed in Hx;
           apply literal_not_prefixed in Hin; [congruence | reflexivity] ] ]).
  - split; [discriminate|]. intros _.
    destruct (JS.truthy_opt_bool (enableLogging props)), (hasSource props);
      apply distinct_NoDup; reflexivity.
Qed.

(** X5. When the firewall is off, or the address-set rules have pairwise
    distinct names without '/', no two constructs of the graph ask for
    the same id: the address sets, declared under IPSet- followed by the
    name of their rule, are the only ids that depend on the input. *)
Theorem graph_ids_distinct (props : SecureWebsiteProps) :
  firewallDeclarable props -> NoDup (ids (graph props)).
Proof.
  intro Hfree. apply ids_distinct_iff. intro Hwaf. exact (proj1 (Hfree Hwaf)).
Qed.

(** X4. The constructs of the graph, by id and in declaration order, when
    the zone is looked up by name and the ids of the address sets are
    free: zone, certificate and website bucket, the logs bucket when
    logging is on, the origin access control, the address sets and the web
    ACL when the firewall is on, the distribution, the grant on the
    website bucket and the two records; without a content source the
    outputs follow at once, and nothing else. *)
Theorem graph_inventory (props : SecureWebsiteProps) :
  zoneLookedUp props ->
  firewallDeclarable props ->
  let upToRecords :=
    ["HostedZone"; "Certificate"; "WebsiteBucket"]
    ++ (if JS.truthy_opt_bool (enableLogging props) then ["LogsBucket"] else [])
    ++ ["OAC"]
    ++ (if not_false (enableWaf props)
        then map (fun rule => ("IPSet-" ++ name rule)%string)
               (filter isIpSetRule (rulesOf props)) ++ ["WebACL"]
        else [])
    ++ ["Distribution"; "WebsiteBucket/Policy"; "ARecord"; "AaaaRecord"] in
  (exists rest, ids (graph props) = upToRecords ++ rest) /\
  (codeSourcePath props = None \/ codeSourcePath props = Some "" ->
   ids (graph props) =
     upToRecords
     ++ ["WebsiteUrl"; "BucketName"; "DistributionId"; "CertificateArn"]
     ++ (if not_false (enableWaf props) then ["WebAclArn"] else [])
     ++ (if JS.truthy_opt_bool (enableLogging props) then ["LogsBucketName"] else [])).
Proof.
  intros _ _ upToRecords. subst upToRecords. rewrite ids_graph.
  change (map ipSetId) with (map (fun rule => ("IPSet-" ++ name rule)%string)).
  split.
  - eexists. rewrite <- !app_assoc. repeat f_equal.
  - intro Hsource.
    replace (hasSource props) with false
      by (unfold hasSource; destruct Hsource as [-> | ->]; reflexivity).
    rewrite <- !app_assoc. reflexivity.
Qed.

(** *** Declaration before use *)

Lemma declaredBeforeUse_app (seen : list string) (g1 g2 : Graph) :
  declaredBeforeUse seen g1 ->
  declaredBeforeUse (seen ++ ids g1) g2 ->
  declaredBeforeUse seen (g1 ++ g2).
Proof.
  revert seen. induction g1 as [|[id r] g1 IH]; intros seen H1 H2; simpl in *.
  - now rewrite app_nil_r in H2.
  - destruct H1 as [Hr H1]. split; [exact Hr|].
    apply IH; [exact H1|]. now rewrite <- app_assoc.
Qed.

Lemma declaredBeforeUse_ipSets (seen : list string) (rules : list WafRule) :
  declaredBeforeUse seen (flat_map ipSetsOf rules).
Proof.
  rewrite ipSets_flat_map.
  generalize (filter isIpSetRule rules). intro l. revert seen.
  induction l as [|rule l IH]; intro seen; simpl; [exact I|].
  split; [intros x []|apply IH].
Qed.

Lemma references_webAcl (rules : list WafRule) :
  incl (references (CfnWebACL (webAclProps rules)))
       (map ipSetId (filter isIpSetRule rules)).
Proof.
  cbn [references webAclProps acl_rules].
  induction rules as [|rule rules IH]; [intros x []|].
  cbn [map flat_map rulePropertyOf rp_statement filter].
  destruct (isIpSetRule rule) eqn:Hip.
  - rewrite (statementOf_ipSet rule Hip). cbn [valueRefs flat_map app map].
    intros x [<-|Hx]; [now left | right; now apply IH].
  - pose proof (statementOf_not_ipSet rule Hip) as Hst.
    destruct (statementOf rule); try exact IH. contradiction.
Qed.

Lemma declaredBeforeUse_webAcl (seen : list string) (rules : list WafRule) :
  declaredBeforeUse seen
    (flat_map ipSetsOf rules ++ [("WebACL", CfnWebACL (webAclProps rules))]).
Proof.
  apply declaredBeforeUse_app; [apply declaredBeforeUse_ipSets|].
  split; [|exact I].
  intros x Hx. apply in_or_app. right.
  apply references_webAcl in Hx.
  unfold ids. rewrite ipSets_flat_map, map_map. exact Hx.
Qed.

(** Finds a literal among the disjuncts of a membership. *)
Ltac find_literal :=
  match goal with
  | |- _ \/ _ => (left; find_literal) || (right; find_literal)
  | |- _ = _ => reflexivity
  end.

(** Discharges [declaredBeforeUse] for a part whose handles are literal. *)
Ltac solve_part :=
  cbn; repeat split;
  intros x Hx; simpl in Hx;
  repeat (destruct Hx as [<-|Hx];
          [unfold ids; rewrite ?map_app; simpl;
           rewrite ?in_app_iff; simpl; find_literal|]);
  contradiction.

(** X6. In the graph of every spec each construct is declared after the
    constructs it refers to: the certificate after the zone, the web ACL
    after its address sets, the distribution after the buckets, the origin
    access control, the certificate and the web ACL, and the policy, the
    records, the deployment and the outputs after what they name. *)
Theorem references_point_backward (props : SecureWebsiteProps) :
  declaredBeforeUse [] (graph props).
Proof.
  rewrite graph_eq.
  destruct (emitted_getHostedZone props) as (source & ->).
  rewrite emitted_firewall, emitted_deployContent.
  unfold createOutputs. cbn [thisOf webAcl logsBucket bucket distribution certificate].
  rewrite result_createFirewall, result_createLogsBucket.
  unfold createLogsBucket.
  destruct (JS.truthy_opt_bool (enableLogging props)),
           (not_false (enableWaf props)), (hasSource props);
    repeat (apply declaredBeforeUse_app;
            [ first [ apply declaredBeforeUse_webAcl | solve_part ] | ]);
    solve_part.
Qed.

(** *** Readers over the parts of the graph *)

Lemma reader_ipSets_nil {B : Type} (f : string * Resource -> list B)
    (rules : list WafRule) :
  (forall id p, f (id, CfnIPSet p) = []) ->
  flat_map f (flat_map ipSetsOf rules) = [].
Proof.
  intro Hf. rewrite ipSets_flat_map.
  induction (filter isIpSetRule rules) as [|rule l IH]; [reflexivity|].
  simpl. now rewrite Hf.
Qed.

(** Rewrites a reader of the graph into readers of its parts, with the
    conditional parts in closed form. *)
Ltac read_parts :=
  rewrite graph_eq, !flat_map_app;
  match goal with
  | |- context [emitted (getHostedZone ?p)] =>
      let source := fresh "source" in
      destruct (emitted_getHostedZone p) as (source & ->)
  end;
  rewrite emitted_firewall, emitted_deployContent;
  unfold createOutputs; cbn [thisOf webAcl logsBucket bucket distribution certificate];
  rewrite result_createFirewall, result_createLogsBucket;
  unfold createLogsBucket.

Lemma bucketsIn_graph props :
  exists website logs,
    bucketsIn (graph props) =
      ("WebsiteBucket", website)
      :: (if JS.truthy_opt_bool (enableLogging props)
          then [("LogsBucket", logs)] else []) /\
    bucketOf "WebsiteBucket" (graph props) = Some website /\
    b_bucketName logs = logsBucketName props /\
    b_removalPolicy logs = b_removalPolicy website /\
    b_autoDeleteObjects logs = b_autoDeleteObjects website /\
    b_publicReadAccess website = false /\
    b_publicReadAccess logs = false /\
    b_blockPublicAccess website = BLOCK_ALL /\
    b_blockPublicAccess logs = BLOCK_ALL /\
    b_versioned website = Some true /\
    b_encryption website = Some S3_MANAGED /\
    b_lifecycleRules website = None /\
    b_lifecycleRules logs =
      Some [ {| lr_id := "DeleteOldLogs"; lr_enabled := true;
                lr_expiration := days 90 |} ].
Proof.
  rewrite bucketOf_WebsiteBucket.
  eexists.
  exists {| b_bucketName := logsBucketName props;
            b_publicReadAccess := false;
            b_blockPublicAccess := BLOCK_ALL;
            b_removalPolicy := JS.or_object (removalPolicy props) DESTROY;
            b_autoDeleteObjects := is_DESTROY (removalPolicy props);
            b_versioned := None;
            b_encryption := None;
            b_lifecycleRules :=
              Some [ {| lr_id := "DeleteOldLogs"; lr_enabled := true;
                        lr_expiration := days 90 |} ] |}.
  split; [|split; [reflexivity|repeat split]].
  unfold bucketsIn. read_parts.
  destruct (JS.truthy_opt_bool (enableLogging props)),
           (not_false (enableWaf props)), (hasSource props);
    rewrite ?flat_map_app, ?reader_ipSets_nil by reflexivity; reflexivity.
Qed.

Lemma deploymentsIn_graph props :
  deploymentsIn (graph props) =
  if hasSource props
  then [("WebsiteDeployment",
         {| bd_sources := [asset (JS.or_string (codeSourcePath props) "")];
            bd_destinationBucket := "WebsiteBucket";
            bd_distribution := "Distribution";
            bd_distributionPaths := ["/*"];
            bd_prune := true;
            bd_retainOnDelete := false |})]
  else [].
Proof.
  unfold deploymentsIn. read_parts.
  destruct (JS.truthy_opt_bool (enableLogging props)),
           (not_false (enableWaf props)), (hasSource props);
    rewrite ?flat_map_app, ?reader_ipSets_nil by reflexivity; reflexivity.
Qed.

Lemma ipSetsIn_graph props :
  ipSetsIn (graph props) =
  if not_false (enableWaf props)
  then map (fun rule =>
              (ipSetId rule,
               {| ips_scope := "CLOUDFRONT";
                  ips_ipAddressVersion := "IPV4";
                  ips_addresses :=
                    JS.or_object (JS.chain (configuration rule) ipAddresses) [] |}))
           (filter isIpSetRule (rulesOf props))
  else [].
Proof.
  unfold ipSetsIn. read_parts.
  assert (Hsets : forall l,
    flat_map (fun c : string * Resource =>
                match snd c with CfnIPSet p => [(fst c, p)] | _ => [] end)
             (map (fun rule =>
                (ipSetId rule,
                 CfnIPSet {| ips_scope := "CLOUDFRONT";
                             ips_ipAddressVersion := "IPV4";
                             ips_addresses :=
                               JS.or_object (JS.chain (configuration rule) ipAddresses) [] |}))
                l)
    = map (fun rule =>
              (ipSetId rule,
               {| ips_scope := "CLOUDFRONT";
                  ips_ipAddressVersion := "IPV4";
                  ips_addresses :=
                    JS.or_object (JS.chain (configuration rule) ipAddresses) [] |})) l).
  { induction l as [|rule l IH]; [reflexivity|]. simpl. now rewrite IH. }
  destruct (JS.truthy_opt_bool (enableLogging props)),
           (not_false (enableWaf props)), (hasSource props);
    rewrite ?flat_map_app, ?ipSets_flat_map, ?Hsets; cbn [flat_map snd fst app];
    rewrite ?app_nil_r; reflexivity.
Qed.

(** Finds the child of the graph declared under a literal id. *)
Ltac lookup_in_graph :=
  rewrite graph_eq;
  repeat (rewrite findChild_app;
          first [ rewrite findChild_getHostedZone by reflexivity
                | rewrite findChild_createLogsBucket by reflexivity
                | rewrite findChild_createFirewall by reflexivity
                | rewrite findChild_deployContent by reflexivity
                | idtac ];
          cbn [emitted createCertificate createWebsiteBucket
               createOriginAccessControl createDistribution
               grantDistributionAccess createARecord createAaaaRecord
               declare snd app findChild String.eqb Ascii.eqb Bool.eqb andb]);
  rewrite ?findChild_createOutputs
    by (unfold outputIds; simpl; intuition discriminate).

Lemma distributionOf_graph props :
  exists d,
    distributionOf "Distribution" (graph props) = Some d /\
    emitted (createDistribution props "WebsiteBucket" "OAC" "Certificate"
               (if not_false (enableWaf props) then Some "WebACL" else None)
               (if JS.truthy_opt_bool (enableLogging props)
                then Some "LogsBucket" else None))
    = [("Distribution", Distribution d)].
Proof.
  unfold distributionOf. lookup_in_graph.
  rewrite result_createFirewall, result_createLogsBucket.
  destruct (not_false (enableWaf props)); cbn [andb];
    eexists; split; reflexivity.
Qed.

(** *** The firewall built from supplied rules *)

(** X1. When the firewall is on and the spec supplies a rule list whose
    address-set rules have pairwise distinct names without '/', the web
    ACL has one rule per supplied rule, in the order given, with the name
    and the priority of the rule untouched (equal priorities, and equal
    names of rules of the other types, are passed on), the name as metric
    name and allow as default action; an empty list gives a web ACL
    without rules, not the default rules. *)
Theorem acl_rules_follow_input (props : SecureWebsiteProps) (rules : list WafRule) :
  enableWaf props <> Some false ->
  wafRules props = Some rules ->
  ipSetNamesFree rules ->
  exists acl,
    webAclOf "WebACL" (graph props) = Some acl /\
    length (acl_rules acl) = length rules /\
    map rp_name (acl_rules acl) = map name rules /\
    map rp_priority (acl_rules acl) = map priority rules /\
    map rp_action (acl_rules acl) =
      map (fun rule => createWafAction (action rule)) rules /\
    map (fun rp => metricName (rp_visibilityConfig rp)) (acl_rules acl) =
      map name rules /\
    acl_defaultAction acl = allow /\
    (rules = [] -> acl_rules acl = []).
Proof.
  intros Hwaf Hrules _.
  rewrite webAclOf_WebACL.
  replace (not_false (enableWaf props)) with true
    by (destruct (enableWaf props) as [[|]|]; try reflexivity; now elim Hwaf).
  rewrite Hrules. eexists. split; [reflexivity|].
  cbn [JS.or_object webAclProps acl_rules acl_defaultAction].
  rewrite length_map, !map_map. repeat split.
  intros ->. reflexivity.
Qed.

Lemma acl_rules_follow_input_witness :
  exists acl,
    webAclOf "WebACL" (graph advancedWebsiteProps) = Some acl /\
    map rp_priority (acl_rules acl) = [1; 2]%Z.
Proof.
  destruct (acl_rules_follow_input advancedWebsiteProps
              [ {| name := "CustomRateLimit"; priority := 1; action := "BLOCK";
                   ruleType := "RATE_LIMIT";
                   configuration := Some {| limit := Some 500%Z; countryCodes := None;
                                            cfg_name := None; ipAddresses := None |} |};
                {| name := "BlockSpecificCountries"; priority := 2; action := "BLOCK";
                   ruleType := "GEO_BLOCK";
                   configuration := Some {| limit := None;
                                            countryCodes := Some ["XX"; "YY"];
                                            cfg_name := None; ipAddresses := None |} |} ])
    as (acl & Hacl & _ & _ & Hprio & _).
  - discriminate.
  - reflexivity.
  - split; simpl; constructor.
  - exists acl. split; [exact Hacl | exact Hprio].
Defined.

(** X2. When the rules of type IP_SET have pairwise distinct names without
    '/', the address sets of the graph are exactly one per such rule, in
    rule order, each declared under IPSet- followed by the rule name with
    the addresses of the rule (none when it gives none); with the firewall
    off there is no address set. The statement of an IP_SET rule refers to
    the address set of its own name, and no other rule has an address-set
    statement. *)
Theorem ip_sets_per_rule (props : SecureWebsiteProps) :
  (firewallDeclarable props ->
   ipSetsIn (graph props) =
    (if not_false (enableWaf props)
     then map (fun rule =>
                 (("IPSet-" ++ name rule)%string,
                  {| ips_scope := "CLOUDFRONT";
                     ips_ipAddressVersion := "IPV4";
                     ips_addresses :=
                       match configuration rule with
                       | Some cfg => match ipAddresses cfg with
                                     | Some addresses => addresses
                                     | None => []
                                     end
                       | None => []
                       end |}))
              (filter isIpSetRule (rulesOf props))
     else [])) /\
  (forall rule s,
     rp_statement (rulePropertyOf rule) = fst (createWafStatement rule s) /\
     (isIpSetRule rule = true ->
      rp_statement (rulePropertyOf rule) =
        ipSetReferenceStatement [Token ("IPSet-" ++ name rule) AttrArn]) /\
     (isIpSetRule rule = false ->
      forall arn, rp_statement (rulePropertyOf rule) <> ipSetReferenceStatement arn)).
Proof.
  split.
  - intros _. rewrite ipSetsIn_graph.
    destruct (not_false (enableWaf props)); [|reflexivity].
    apply map_ext. intro rule. unfold ipSetId, JS.or_object, JS.chain.
    destruct (configuration rule) as [cfg|]; [|reflexivity].
    destruct (ipAddresses cfg); reflexivity.
  - intros rule s. cbn [rulePropertyOf rp_statement].
    split; [now rewrite createWafStatement_frame|]. split.
    + apply statementOf_ipSet.
    + intros Hip arn Heq. pose proof (statementOf_not_ipSet rule Hip) as Hst.
      now rewrite Heq in Hst.
Qed.

(** X3. The fallbacks of the statement translator. A managed rule without
    a group name, or with the empty name, uses the common rule set. A
    geo-block rule without country codes uses CN and RU, while an empty
    list of codes is kept as it is. A rule type other than the four known
    ones is translated as the common managed rule set. Only an IP_SET rule
    adds a construct to the scope. *)
Theorem statement_fallbacks (rule : WafRule) (s : Graph) :
  (ruleType rule = "MANAGED_RULE" ->
   JS.nonEmpty_string (JS.chain (configuration rule) cfg_name) = None ->
   fst (createWafStatement rule s) =
     managedRuleGroupStatement "AWS" "AWSManagedRulesCommonRuleSet") /\
  (ruleType rule = "GEO_BLOCK" ->
   JS.chain (configuration rule) countryCodes = None ->
   fst (createWafStatement rule s) = geoMatchStatement ["CN"; "RU"]) /\
  (ruleType rule = "GEO_BLOCK" ->
   forall codes,
     JS.chain (configuration rule) countryCodes = Some codes ->
     fst (createWafStatement rule s) = geoMatchStatement codes) /\
  (ruleType rule <> "RATE_LIMIT" -> ruleType rule <> "MANAGED_RULE" ->
   ruleType rule <> "GEO_BLOCK" -> ruleType rule <> "IP_SET" ->
   fst (createWafStatement rule s) =
     managedRuleGroupStatement "AWS" "AWSManagedRulesCommonRuleSet") /\
  (ruleType rule <> "IP_SET" -> snd (createWafStatement rule s) = s).
Proof.
  rewrite createWafStatement_frame. cbn [fst snd].
  unfold statementOf, ipSetsOf, createWafStatement.
  repeat split.
  - intros -> Hname. cbn. unfold JS.nonEmpty_string in Hname. unfold JS.or_string.
    destruct (JS.chain (configuration rule) cfg_name) as [[|c n]|];
      try reflexivity; discriminate.
  - intros -> Hcodes. cbn. now rewrite Hcodes.
  - intros -> codes Hcodes. cbn. now rewrite Hcodes.
  - intros H1 H2 H3 H4.
    apply String.eqb_neq in H1, H2, H3, H4. now rewrite H1, H2, H3, H4.
  - intro H4. apply String.eqb_neq in H4.
    destruct (String.eqb (ruleType rule) "RATE_LIMIT"); [apply app_nil_r|].
    destruct (String.eqb (ruleType rule) "MANAGED_RULE"); [apply app_nil_r|].
    destruct (String.eqb (ruleType rule) "GEO_BLOCK"); [apply app_nil_r|].
    rewrite H4. apply app_nil_r.
Qed.

Lemma ip_sets_per_rule_witness :
  ipSetsIn (graph ipSetWebsiteProps) =
    [("IPSet-Office",
      {| ips_scope := "CLOUDFRONT"; ips_ipAddressVersion := "IPV4";
         ips_addresses := ["192.0.2.0/24"] |})] /\
  rp_statement (rulePropertyOf (ipSetRule "Office" ["192.0.2.0/24"])) =
    ipSetReferenceStatement [Token "IPSet-Office" AttrArn].
Proof.
  split.
  - apply (proj1 (ip_sets_per_rule ipSetWebsiteProps)).
    intros _. split; [now apply distinct_NoDup | repeat constructor].
  - apply (proj2 (ip_sets_per_rule ipSetWebsiteProps)
             (ipSetRule "Office" ["192.0.2.0/24"]) []).
    reflexivity.
Defined.

Lemma statement_fallbacks_witness :
  fst (createWafStatement
         {| name := "Geo"; priority := 4; action := "COUNT";
            ruleType := "GEO_BLOCK"; configuration := None |} [])
  = geoMatchStatement ["CN"; "RU"] /\
  fst (createWafStatement
         {| name := "Custom"; priority := 4; action := "COUNT";
            ruleType := "REGEX"; configuration := None |} [])
  = managedRuleGroupStatement "AWS" "AWSManagedRulesCommonRuleSet".
Proof.
  split.
  - apply (proj1 (proj2 (statement_fallbacks _ []))); reflexivity.
  - apply (proj1 (proj2 (proj2 (proj2 (statement_fallbacks _ [])))));
      discriminate.
Defined.

Lemma graph_ids_distinct_witness : NoDup (ids (graph ipSetWebsiteProps)).
Proof.
  apply (graph_ids_distinct ipSetWebsiteProps).
  intros _. split; [now apply distinct_NoDup | repeat constructor].
Defined.

Lemma graph_inventory_witness :
  ids (graph simpleWebsiteProps) =
    [ "HostedZone"; "Certificate"; "WebsiteBucket"; "OAC"; "WebACL";
      "Distribution"; "WebsiteBucket/Policy"; "ARecord"; "AaaaRecord";
      "WebsiteUrl"; "BucketName"; "DistributionId"; "CertificateArn";
      "WebAclArn" ].
Proof.
  apply (proj2 (graph_inventory simpleWebsiteProps
                  (or_introl eq_refl)
                  (fun _ => conj (NoDup_nil string) (Forall_nil _)))).
  now left.
Defined.

(** *** Buckets, logging and deployment *)

(** X7. The logging resources come together. Whenever the ids of the
    address sets are free: exactly when [enableLogging] is true the graph
    has a second bucket, LogsBucket, and the distribution logs to it; the
    logs bucket has the removal policy and the purge flag of the website
    bucket, the name given by [logsBucketName], and one lifecycle rule
    that expires objects after 90 days; the distribution receives
    [enableLogging] as the spec gives it. When moreover the zone is looked
    up by name and there is no content source, the output LogsBucketName
    is declared exactly when [enableLogging] is true. *)
Theorem logging_resources (props : SecureWebsiteProps) :
  firewallDeclarable props ->
  let on := JS.truthy_opt_bool (enableLogging props) in
  logsBucket (object props) = (if on then Some "LogsBucket" else None) /\
  map fst (bucketsIn (graph props)) =
    "WebsiteBucket" :: (if on then ["LogsBucket"] else []) /\
  (exists d,
     distributionOf "Distribution" (graph props) = Some d /\
     d_logBucket d = logsBucket (object props) /\
     d_enableLogging d = enableLogging props /\
     d_logFilePrefix d = "cloudfront-logs/" /\
     d_logIncludesCookies d = true) /\
  (zoneLookedUp props ->
   codeSourcePath props = None \/ codeSourcePath props = Some "" ->
   (In "LogsBucketName" (map fst (outputs (graph props))) <-> on = true)) /\
  (on = true ->
   exists website logs,
     In ("WebsiteBucket", website) (bucketsIn (graph props)) /\
     In ("LogsBucket", logs) (bucketsIn (graph props)) /\
     b_bucketName logs = logsBucketName props /\
     b_removalPolicy logs = b_removalPolicy website /\
     b_autoDeleteObjects logs = b_autoDeleteObjects website /\
     b_lifecycleRules logs =
       Some [ {| lr_id := "DeleteOldLogs"; lr_enabled := true;
                 lr_expiration := days 90 |} ]).
Proof.
  intros _ on. subst on.
  destruct (bucketsIn_graph props)
    as (website & logs & Hb & _ & Hname & Hpol & Hdel & _ & _ & _ & _ & _ & _ & _ & Hlife).
  split; [|split; [|split; [|split]]].
  - rewrite object_eq. cbn [thisOf logsBucket]. apply result_createLogsBucket.
  - rewrite Hb. now destruct (JS.truthy_opt_bool (enableLogging props)).
  - destruct (distributionOf_graph props) as (d & Hd & Hemit).
    exists d. split; [exact Hd|].
    rewrite object_eq. cbn [thisOf logsBucket]. rewrite result_createLogsBucket.
    cbn in Hemit. injection Hemit as <-. repeat split.
  - intros _ _. rewrite outputs_graph. unfold createOutputs.
    cbn [thisOf webAcl logsBucket]. rewrite result_createFirewall, result_createLogsBucket.
    destruct (JS.truthy_opt_bool (enableLogging props)),
             (not_false (enableWaf props)); simpl;
      intuition discriminate.
  - intro Hon. rewrite Hon in Hb. exists website, logs. rewrite Hb.
    repeat split; simpl; auto.
Qed.

Lemma logging_resources_witness :
  In "LogsBucketName" (map fst (outputs (graph ipSetWebsiteProps))).
Proof.
  assert (Hfree : firewallDeclarable ipSetWebsiteProps).
  { intros _. split; [now apply distinct_NoDup | repeat constructor]. }
  apply (proj1 (proj2 (proj2 (proj2 (logging_resources ipSetWebsiteProps Hfree))))).
  - now left.
  - now left.
  - reflexivity.
Defined.





(** *** Outputs, [addWafRule] and empty strings *)

(** X9. The output projection of a spec whose zone is looked up by name,
    whose address-set ids are free and which has no content source: the
    site URL https:// followed by the domain name, the name of the website
    bucket, the id of the distribution and the ARN of the certificate,
    then the ARN of the web ACL exactly when the firewall is on and the
    name of the logs bucket exactly when logging is on, in this order. *)
Theorem output_projection (props : SecureWebsiteProps) :
  zoneLookedUp props ->
  firewallDeclarable props ->
  codeSourcePath props = None \/ codeSourcePath props = Some "" ->
  map (fun o => (fst o, out_value (snd o))) (outputs (graph props)) =
  [ ("WebsiteUrl", [Lit ("https://" ++ domainName props)]);
    ("BucketName", [Token "WebsiteBucket" BucketName]);
    ("DistributionId", [Token "Distribution" DistributionId]);
    ("CertificateArn", [Token "Certificate" CertificateArn]) ]
  ++ (if not_false (enableWaf props)
      then [("WebAclArn", [Token "WebACL" AttrArn])] else [])
  ++ (if JS.truthy_opt_bool (enableLogging props)
      then [("LogsBucketName", [Token "LogsBucket" BucketName])] else []).
Proof.
  intros _ _ _. rewrite outputs_graph. unfold createOutputs.
  cbn [thisOf webAcl logsBucket bucket distribution certificate].
  rewrite result_createFirewall, result_createLogsBucket.
  destruct (not_false (enableWaf props)),
           (JS.truthy_opt_bool (enableLogging props)); reflexivity.
Qed.

Lemma output_projection_witness :
  map (fun o => (fst o, out_value (snd o))) (outputs (graph simpleWebsiteProps)) =
  [ ("WebsiteUrl", [Lit "https://mysite.example.com"]);
    ("BucketName", [Token "WebsiteBucket" BucketName]);
    ("DistributionId", [Token "Distribution" DistributionId]);
    ("CertificateArn", [Token "Certificate" CertificateArn]);
    ("WebAclArn", [Token "WebACL" AttrArn]) ].
Proof.
  apply (output_projection simpleWebsiteProps).
  - now left.
  - intros _. split; simpl; constructor.
  - now left.
Defined.



Lemma or_string_nonEmpty (a : option string) (d : string) :
  JS.or_string (JS.nonEmpty_string a) d = JS.or_string a d.
Proof. destruct a as [[|c s]|]; reflexivity. Qed.

(** X12. An empty string counts as unset wherever the constructor reads a
    property through a condition or a default: for [account],
    [hostedZoneId], [distributionComment], [indexDocument] and
    [codeSourcePath] the empty string gives the object and the graph that
    leaving the property out gives, and [enableWaf] left out gives what
    true gives. *)
Theorem empty_strings_as_unset (props : SecureWebsiteProps) :
  new_SecureWebsite (normalized props) = new_SecureWebsite props.
Proof.
  unfold new_SecureWebsite, constructor, getHostedZone, createCertificate,
    createWebsiteBucket, createLogsBucket, createOriginAccessControl,
    createFirewall, createDistribution, grantDistributionAccess,
    createARecord, createAaaaRecord, deployContent, createOutputs,
    errorResponse.
  cbn [normalized domainName account hostedZoneId bucketName
       distributionComment errorDocument indexDocument enableWaf wafRules
       codeSourcePath priceClass removalPolicy subjectAlternativeNames
       enableLogging logsBucketName].
  rewrite !or_string_nonEmpty.
  destruct (hostedZoneId props) as [[|c z]|],
           (codeSourcePath props) as [[|c' p]|],
           (enableWaf props) as [[|]|]; reflexivity.
Qed.

(** *** Names and access *)

(** X22. The certificate and the distribution agree on the names they
    serve. Whenever the ids of the address sets are free, the distribution
    answers for the domain name of the certificate followed by its
    alternative names (none when the spec gives none) and uses that
    certificate, which is validated through the hosted zone; when moreover
    the zone is looked up by name, the two records are declared in that
    zone under the domain name and point at the distribution. *)
Theorem names_agree (props : SecureWebsiteProps) :
  firewallDeclarable props ->
  (exists cert d,
     certificateOf "Certificate" (graph props) = Some cert /\
     distributionOf "Distribution" (graph props) = Some d /\
     cert_domainName cert = domainName props /\
     cert_subjectAlternativeNames cert = subjectAlternativeNames props /\
     cert_validation cert = fromDns "HostedZone" /\
     d_certificate d = "Certificate" /\
     d_domainNames d =
       cert_domainName cert
       :: match cert_subjectAlternativeNames cert with
          | Some names => names
          | None => []
          end) /\
  (zoneLookedUp props ->
   exists a aaaa,
     recordOf "ARecord" (graph props) = Some a /\
     recordOf "AaaaRecord" (graph props) = Some aaaa /\
     a = aaaa /\
     r_zone a = "HostedZone" /\
     r_recordName a = domainName props /\
     r_target a = fromAlias (CloudFrontTarget "Distribution")).
Proof.
  intros _. split.
  - destruct (distributionOf_graph props) as (d & Hd & Hemit).
    cbn in Hemit. injection Hemit as <-.
    eexists. eexists.
    split; [unfold certificateOf; lookup_in_graph; reflexivity|].
    split; [exact Hd|].
    repeat split.
  - intros _. eexists. eexists.
    split; [unfold recordOf; lookup_in_graph;
            destruct (not_false (enableWaf props)); reflexivity|].
    split; [unfold recordOf; lookup_in_graph;
            destruct (not_false (enableWaf props)); reflexivity|].
    repeat split.
Qed.

Lemma names_agree_witness :
  exists a aaaa,
    recordOf "ARecord" (graph simpleWebsiteProps) = Some a /\
    recordOf "AaaaRecord" (graph simpleWebsiteProps) = Some aaaa /\
    a = aaaa /\
    r_recordName a = "mysite.example.com".
Proof.
  destruct (proj2 (names_agree simpleWebsiteProps
                     (fun _ => conj (NoDup_nil string) (Forall_nil _)))
              (or_introl eq_refl))
    as (a & aaaa & Ha & Haaaa & Heq & _ & Hname & _).
  exists a, aaaa. repeat split; assumption.
Defined.

(** X23. The access grant is scoped. Whenever the ids of the address sets
    are free, the constructor itself adds exactly one statement to a
    bucket policy, to the one of the website bucket (what the construct
    library adds to that policy on its own is not counted); the statement
    allows only s3:GetObject, only on the objects of that bucket, only to
    the CloudFront service principal, and only for requests whose source
    ARN is the distribution of this construct in the account of the spec
    (any account when the spec gives none or the empty string). *)
Theorem access_grant_scoped (props : SecureWebsiteProps) :
  firewallDeclarable props ->
  exists st,
    policiesIn (graph props) = [("WebsiteBucket/Policy", st)] /\
    policyOf "WebsiteBucket/Policy" (graph props) = Some ("WebsiteBucket", st) /\
    ps_effect st = EFFECT_ALLOW /\
    ps_principals st = [ServicePrincipal "cloudfront.amazonaws.com"] /\
    ps_actions st = ["s3:GetObject"] /\
    ps_resources st = [[Token "WebsiteBucket" BucketArn; Lit "/*"]] /\
    ps_conditions st =
      [ ("StringEquals",
         [ ("AWS:SourceArn",
            [ Lit ("arn:aws:cloudfront::"
                   ++ match account props with
                      | Some (String c rest) => String c rest
                      | _ => "*"
                      end
                   ++ ":distribution/");
              Token "Distribution" DistributionId ]) ]) ].
Proof.
  intros _. eexists. split; [|split].
  - unfold policiesIn. read_parts.
    destruct (JS.truthy_opt_bool (enableLogging props)),
             (not_false (enableWaf props)), (hasSource props);
      rewrite ?flat_map_app, ?reader_ipSets_nil by reflexivity; reflexivity.
  - unfold policyOf. lookup_in_graph.
    destruct (not_false (enableWaf props)); reflexivity.
  - repeat split. cbn. unfold JS.or_string.
    destruct (account props) as [[|c rest]|]; reflexivity.
Qed.

Lemma access_grant_scoped_witness :
  exists st,
    policiesIn (graph simpleWebsiteProps) = [("WebsiteBucket/Policy", st)] /\
    ps_actions st = ["s3:GetObject"].
Proof.
  destruct (access_grant_scoped simpleWebsiteProps
              (fun _ => conj (NoDup_nil string) (Forall_nil _)))
    as (st & Hgraph & _ & _ & _ & Hactions & _).
  exists st. split; assumption.
Defined.

End WebsiteInventory.

(** ** The apex domain *)

Section ApexDomain.

Import Website.

Variable sep : ascii.

Lemma concat_cons_char (c : ascii) (part : string) (parts : list string) :
  String.concat (String sep "") (String c part :: parts)
  = String c (String.concat (String sep "") (part :: parts)).
Proof. destruct parts; reflexivity. Qed.

(** Joining undoes splitting, for every string. *)
Lemma join_split (d : string) :
  JS.join (String sep "") (JS.split sep d) = d.
Proof.
  unfold JS.join. induction d as [|c d IH]; [reflexivity|]. simpl.
  destruct (Ascii.eqb_spec c sep) as [->|_].
  - pose proof (split_nonempty sep d) as Hne.
    destruct (JS.split sep d) as [|part parts]; [contradiction|].
    change (String.concat (String sep "") ("" :: part :: parts))
      with (String sep (String.concat (String sep "") (part :: parts))).
    now rewrite IH.
  - pose proof (split_nonempty sep d) as Hne.
    destruct (JS.split sep d) as [|part parts]; [contradiction|].
    now rewrite concat_cons_char, IH.
Qed.

(** Every part of a split is a label. *)
Lemma split_labels (d : string) :
  Forall (fun l => JS.isLabel sep l = true) (JS.split sep d).
Proof.
  induction d as [|c d IH]; simpl; [repeat constructor|].
  destruct (Ascii.eqb c sep) eqn:Hc; [now constructor|].
  destruct (JS.split sep d) as [|part parts]; [repeat constructor; simpl; now rewrite Hc|].
  inversion IH as [|? ? Hpart Hparts]; subst.
  constructor; [simpl; now rewrite Hc | exact Hparts].
Qed.

Lemma join_skipn (l : list string) (k : nat) :
  skipn k l <> [] ->
  exists before : string,
    JS.join (String sep "") l
    = (before ++ JS.join (String sep "") (skipn k l))%string.
Proof.
  revert l. induction k as [|k IH]; intros l Hne.
  - exists "". reflexivity.
  - destruct l as [|x l]; [now elim Hne|]. simpl in Hne.
    destruct (IH l Hne) as (before & Heq).
    destruct l as [|y l]; [destruct k; now elim Hne|].
    exists (x ++ String sep before)%string.
    change (JS.join (String sep "") (x :: y :: l))
      with (x ++ String sep (JS.join (String sep "") (y :: l)))%string.
    rewrite Heq. simpl. rewrite string_app_assoc. reflexivity.
Qed.

End ApexDomain.

Lemma slice_last_nonempty {A : Type} (n : nat) (l : list A) :
  l <> [] -> JS.slice_last (S n) l <> [].
Proof.
  unfold JS.slice_last. intros Hne Hnil.
  assert (Hlen : length (skipn (length l - S n) l) = 0) by now rewrite Hnil.
  rewrite length_skipn in Hlen.
  assert (Hpos : 0 < length l) by (destruct l; [now elim Hne | simpl; lia]).
  lia.
Qed.

Lemma slice_last_short {A : Type} (n : nat) (l : list A) :
  length l <= n -> JS.slice_last n l = l.
Proof.
  unfold JS.slice_last. intro Hlen.
  replace (length l - n) with 0 by lia. reflexivity.
Qed.

Lemma slice_last_length {A : Type} (n : nat) (l : list A) :
  length (JS.slice_last n l) <= n.
Proof. unfold JS.slice_last. rewrite length_skipn. lia. Qed.

Lemma slice_last_Forall {A : Type} (P : A -> Prop) (n : nat) (l : list A) :
  Forall P l -> Forall P (JS.slice_last n l).
Proof.
  unfold JS.slice_last. intro H. rewrite Forall_forall in *.
  intros x Hx. apply H. revert Hx. generalize (length l - n). intro k.
  revert l H. induction k as [|k IH]; intros l H Hx; [exact Hx|].
  destruct l; [contradiction|]. right. simpl in Hx.
  apply (IH l); [intros; apply H; now right | exact Hx].
Qed.

Lemma getApexDomain_eq (d : string) :
  Website.getApexDomain d = JS.join "." (JS.slice_last 2 (JS.split "." d)).
Proof.
  unfold Website.getApexDomain.
  destruct (Nat.leb_spec 2 (length (JS.split "." d))) as [_|Hlen]; [reflexivity|].
  rewrite slice_last_short by lia. symmetry. apply join_split.
Qed.

(** X13. [getApexDomain] on every string: the result is the last two
    dot-separated parts joined by a dot, and the whole string when it has
    at most two parts (as example.com, the domain of the example app); it
    always is a suffix of the domain, has at most two parts itself, and
    applying the function twice gives what applying it once gives. *)
Theorem getApexDomain_properties (d : string) :
  Website.getApexDomain d = JS.join "." (JS.slice_last 2 (JS.split "." d)) /\
  (length (JS.split "." d) <= 2 -> Website.getApexDomain d = d) /\
  (exists before : string, d = (before ++ Website.getApexDomain d)%string) /\
  length (JS.split "." (Website.getApexDomain d)) <= 2 /\
  Website.getApexDomain (Website.getApexDomain d) = Website.getApexDomain d.
Proof.
  pose proof (split_nonempty "." d) as Hne.
  pose proof (split_labels "." d) as Hlabels.
  assert (Hparts : JS.split "." (Website.getApexDomain d)
                   = JS.slice_last 2 (JS.split "." d)).
  { rewrite getApexDomain_eq. apply split_join.
    - now apply slice_last_nonempty.
    - now apply slice_last_Forall. }
  split; [apply getApexDomain_eq|]. split; [|split; [|split]].
  - intro Hlen. rewrite getApexDomain_eq, slice_last_short by exact Hlen.
    apply join_split.
  - rewrite getApexDomain_eq.
    destruct (join_skipn "." (JS.split "." d) (length (JS.split "." d) - 2))
      as (before & Heq).
    + now apply (slice_last_nonempty 1).
    + exists before. unfold JS.slice_last.
      rewrite join_split in Heq. exact Heq.
  - rewrite Hparts. apply slice_last_length.
  - rewrite (getApexDomain_eq (Website.getApexDomain d)), Hparts.
    rewrite (slice_last_short 2) by apply slice_last_length.
    symmetry. apply getApexDomain_eq.
Qed.

Lemma getApexDomain_properties_witness :
  Website.getApexDomain "example.com" = "example.com".
Proof.
  apply (proj1 (proj2 (getApexDomain_properties "example.com"))).
  simpl. lia.
Defined.

(** ** AccountConfigStack: the rest of the stack *)

Section AccountConfigMore.

Import AccountConfig.

Context {number : Type}.
Context (JSON_stringify : JSON number -> string).
Context (process_cwd : string).
Context (path_join : string -> string -> string).
Context (readFileSync : string -> string + string).
Context (JSON_parse : string -> string + JS.Object (JS.Object (JSON number))).
Context (inheritedHas : string -> string -> bool).
Context (parameterHas : string -> bool).

Local Abbreviation Stack := (AccountConfigStack number).
Local Abbreviation newParameter := (newStringParameter number JSON_stringify).
Local Abbreviation new_AccountConfigStack :=
  (constructor number JSON_stringify process_cwd path_join readFileSync JSON_parse).
Local Abbreviation contextPath props :=
  (resolvedContextFilePath process_cwd path_join props).
Local Abbreviation contextOf props :=
  (readContext number readFileSync JSON_parse (contextPath props)).

Lemma get_map {V W : Type} (g : string -> V -> W) (l : JS.Object V) (k : string) :
  JS.get (map (fun kv => (fst kv, g (fst kv) (snd kv))) l) k
  = option_map (g k) (JS.get l k).
Proof.
  induction l as [|[k' v] l IH]; simpl; [reflexivity|].
  destruct (String.eqb_spec k k') as [->|_]; [reflexivity | exact IH].
Qed.

Lemma keys_map {V W : Type} (g : string -> V -> W) (l : JS.Object V) :
  JS.keys (map (fun kv => (fst kv, g (fst kv) (snd kv))) l) = JS.keys l.
Proof. unfold JS.keys. rewrite map_map. reflexivity. Qed.

Lemma filter_all {A : Type} (f : A -> bool) (l : list A) :
  (forall x, In x l -> f x = true) -> filter f l = l.
Proof.
  induction l as [|x l IH]; intro H; simpl; [reflexivity|].
  rewrite (H x) by now left. rewrite IH; [reflexivity|].
  intros y Hy. apply H. now right.
Qed.

Lemma without_proto (cfg : JS.Object (JSON number)) :
  ~ In "__proto__" (JS.keys cfg) ->
  filter (fun kv : string * JSON number => negb (String.eqb (fst kv) "__proto__")) cfg
  = cfg.
Proof.
  intro Hnot. apply filter_all. intros [key value] Hin. cbn [fst].
  destruct (String.eqb_spec key "__proto__") as [->|_]; [|reflexivity].
  exfalso. apply Hnot. change "__proto__" with (fst ("__proto__", value)).
  now apply in_map.
Qed.

(** X14. After a resolution of a record whose construct ids are distinct
    and which has no key __proto__, the parameters are stored under the
    keys of the record, in the same order, and [getAllConfigKeys] returns
    those keys. For every key of the record [hasConfig] is true and
    [getParameter] returns the parameter published at prefix/key. For
    every other key both look at what every object inherits: for the name
    of an inherited property (constructor, toString and the like)
    [hasConfig] is true and [getParameter] returns that property; for any
    other key [hasConfig] is false and [getParameter] throws an error
    whose message lists the keys that have a parameter. *)
Theorem parameter_lookup (stackAccount : string) (props : AccountConfigStackProps)
    (accountsContext : JS.Object (JS.Object (JSON number)))
    (cfg : JS.Object (JSON number)) (id prefix : string) :
  contextOf props = inr accountsContext ->
  JS.defaultsTo (accountId props) stackAccount id ->
  JS.defaultsTo (parameterPrefix props) ("/account-config/" ++ id) prefix ->
  JS.get accountsContext id = Some cfg ->
  JS.wf cfg ->
  NoDup (constructIdsFor (JS.keys cfg)) ->
  (forall key value,
     In (key, value) (JS.entries cfg) ->
     accepted (newParameter prefix key value) = true) ->
  ~ In "__proto__" (JS.keys cfg) ->
  exists stack,
    new_AccountConfigStack stackAccount props = Ok stack /\
    getAllConfigKeys stack = JS.keys cfg /\
    JS.keys (parameters stack) = JS.keys cfg /\
    (forall key value,
       In (key, value) (JS.entries cfg) ->
       hasConfig inheritedHas stack key = true /\
       exists p,
         getParameter parameterHas stack key = Ok (TheParameter p) /\
         In p (published stack) /\
         parameterName p = (prefix ++ "/" ++ key)%string /\
         stringValue p = toStringValue number JSON_stringify value) /\
    (forall key,
       ~ In key (JS.keys cfg) ->
       (In key JS.objectPrototypeNames ->
        hasConfig inheritedHas stack key = true /\
        getParameter parameterHas stack key = Ok (InheritedProperty key)) /\
       (~ In key JS.objectPrototypeNames ->
        hasConfig inheritedHas stack key = false /\
        getParameter parameterHas stack key =
          Throw ("Parameter '" ++ key ++ "' not found. Available parameters: "
                 ++ JS.join ", " (JS.keys cfg)))).
Proof.
  intros Hctx Hid Hprefix Hget Hwf Hnd _ Hproto.
  destruct (constructor_fields JSON_stringify _ _ _ _ _ _ _ _ _ _ Hctx Hid Hprefix Hget Hwf Hnd)
    as (stack & Hok & Hcfg & _ & Hparams & Hnone & Hnode).
  rewrite (without_proto cfg Hproto) in Hparams. specialize (Hnone Hproto).
  exists stack. split; [exact Hok|].
  split; [unfold getAllConfigKeys; now rewrite Hcfg|].
  split; [rewrite Hparams; apply keys_map|].
  unfold hasConfig, configValue, getParameter, parametersInherit, JS.read.
  rewrite Hcfg, Hparams, Hnone.
  split.
  - intros key value Hin. rewrite get_map.
    rewrite (get_present cfg key value Hwf Hin). cbn [option_map].
    split; [reflexivity|].
    exists (newParameter prefix key value). split; [reflexivity|].
    split; [|split; reflexivity].
    unfold published. rewrite Hnode, published_constructsFor.
    apply in_map_iff. exists (key, value). split; [reflexivity | exact Hin].
  - intros key Habsent. rewrite get_map, keys_map.
    rewrite (get_absent cfg key Habsent). cbn [option_map]. unfold JS.inherits.
    split; intro Hown.
    + apply existsb_eqb_In in Hown. rewrite Hown. now split.
    + apply existsb_eqb_notIn in Hown. rewrite Hown. now split.
Qed.

(** X16. When the context file cannot be read, or its text cannot be
    parsed, the constructor throws the error that names the path and
    carries the text of the failure, whatever the account id; the path is
    [contextFilePath] when that is a non-empty string and cdk.context.json
    in the working directory otherwise. *)
Theorem context_unreadable (stackAccount : string) (props : AccountConfigStackProps) :
  (forall path,
     contextFilePath props = Some path -> path <> "" ->
     contextPath props = path) /\
  (contextFilePath props = None \/ contextFilePath props = Some "" ->
   contextPath props = path_join process_cwd "cdk.context.json") /\
  (forall error,
     readFileSync (contextPath props) = inl error ->
     new_AccountConfigStack stackAccount props =
       Throw ("Failed to read or parse context file at " ++ contextPath props
              ++ ": " ++ error)) /\
  (forall content error,
     readFileSync (contextPath props) = inr content ->
     JSON_parse content = inl error ->
     new_AccountConfigStack stackAccount props =
       Throw ("Failed to read or parse context file at " ++ contextPath props
              ++ ": " ++ error)).
Proof.
  unfold resolvedContextFilePath. split; [|split; [|split]].
  - intros path -> Hne. destruct path; [now elim Hne | reflexivity].
  - intros [-> | ->]; reflexivity.
  - intros error Hread. unfold constructor, readContext. cbv zeta.
    unfold resolvedContextFilePath. now rewrite Hread.
  - intros content error Hread Hparse. unfold constructor, readContext. cbv zeta.
    unfold resolvedContextFilePath. now rewrite Hread, Hparse.
Qed.

(** X17. The outputs of a stack resolved from a record whose construct
    ids are distinct: the account id, the parameter prefix and the keys
    of the record joined by commas, then, in the order of the record, for
    every key other than __proto__ (which sets the prototype of
    [this.parameters] instead of adding an entry) the ARN of its
    parameter under the id made of the capitalized key and ParameterArn,
    with every '/' of it replaced by '--'. *)
Theorem stack_outputs (stackAccount : string) (props : AccountConfigStackProps)
    (accountsContext : JS.Object (JS.Object (JSON number)))
    (cfg : JS.Object (JSON number)) (id prefix : string) :
  contextOf props = inr accountsContext ->
  JS.defaultsTo (accountId props) stackAccount id ->
  JS.defaultsTo (parameterPrefix props) ("/account-config/" ++ id) prefix ->
  JS.get accountsContext id = Some cfg ->
  JS.wf cfg ->
  NoDup (constructIdsFor (JS.keys cfg)) ->
  (forall key value,
     In (key, value) (JS.entries cfg) ->
     accepted (newParameter prefix key value) = true) ->
  exists stack,
    new_AccountConfigStack stackAccount props = Ok stack /\
    map (fun o => (fst o, out_value (snd o))) (outputsOf stack) =
      [ ("AccountId", [Scope.Lit id]);
        ("ParameterPrefix", [Scope.Lit prefix]);
        ("ConfigKeys", [Scope.Lit (JS.join "," (JS.keys cfg))]) ]
      ++ map (fun key =>
                (Scope.sanitizeId (capitalizeFirst key ++ "ParameterArn"),
                 [Scope.Token (Scope.sanitizeId ("Parameter" ++ capitalizeFirst key))
                    Scope.ParameterArn]))
             (filter (fun key => negb (String.eqb key "__proto__")) (JS.keys cfg)).
Proof.
  intros Hctx Hid Hprefix Hget Hwf Hnd _.
  destruct (constructor_fields JSON_stringify _ _ _ _ _ _ _ _ _ _ Hctx Hid Hprefix Hget Hwf Hnd)
    as (stack & Hok & _ & _ & _ & _ & Hnode).
  exists stack. split; [exact Hok|].
  unfold outputsOf. rewrite Hnode. unfold constructsFor.
  rewrite !flat_map_app, !map_app.
  assert (Hparams : forall l : list (string * JSON number),
            flat_map (fun c : string * Resource =>
                        match snd c with
                        | CfnOutput p => [(fst c, p)]
                        | SsmStringParameter _ => []
                        end)
              (map (fun kv =>
                      (parameterId (fst kv),
                       SsmStringParameter (newParameter prefix (fst kv) (snd kv)))) l)
            = []).
  { induction l as [|kv l IH]; [reflexivity | exact IH]. }
  rewrite Hparams. cbn [app flat_map map fst snd out_value].
  do 3 f_equal. unfold JS.keys.
  clear. induction cfg as [|[key value] l IH]; [reflexivity|].
  cbn [filter map fst]. destruct (String.eqb key "__proto__"); cbn [negb];
    [exact IH|].
  cbn [map flat_map fst snd out_value app]. now rewrite IH.
Qed.

Lemma NoDup_map_eq {A B : Type} (g : A -> B) (l : list A) (a b : A) :
  NoDup (map g l) -> In a l -> In b l -> g a = g b -> a = b.
Proof.
  induction l as [|x l IH]; simpl; [contradiction|].
  intros Hnd Ha Hb Heq. inversion Hnd as [|? ? Hx Hnd']; subst.
  destruct Ha as [->|Ha], Hb as [->|Hb]; trivial.
  - exfalso. apply Hx. rewrite Heq. now apply in_map.
  - exfalso. apply Hx. rewrite <- Heq. now apply in_map.
  - now apply IH.
Qed.

Lemma NoDup_app_disjoint {A : Type} (l1 l2 : list A) (x : A) :
  NoDup (l1 ++ l2) -> In x l1 -> In x l2 -> False.
Proof.
  induction l1 as [|y l1 IH]; simpl; [contradiction|].
  intros Hnd [->|Hin] Hin2; inversion Hnd as [|? ? Hy Hnd']; subst.
  - apply Hy. apply in_or_app. now right.
  - now apply IH.
Qed.


Lemma account_or_string_nonEmpty (a : option string) (d : string) :
  JS.or_string (JS.nonEmpty_string a) d = JS.or_string a d.
Proof. destruct a as [[|c s]|]; reflexivity. Qed.

(** X19. An empty string counts as unset for [accountId],
    [contextFilePath] and [parameterPrefix]: the constructor returns what
    it returns when the property is left out, so an empty prefix publishes
    under /account-config/ and the account id, not under paths that start
    with a slash and the key. *)
Theorem empty_props_as_unset (stackAccount : string) (props : AccountConfigStackProps) :
  new_AccountConfigStack stackAccount (normalizedProps props)
  = new_AccountConfigStack stackAccount props.
Proof.
  unfold constructor, resolvedParameterPrefix, resolvedContextFilePath,
    resolvedAccountId.
  cbn [normalizedProps accountId contextFilePath parameterPrefix].
  now rewrite !account_or_string_nonEmpty.
Qed.

End AccountConfigMore.

(** *** The example account on the example platform *)

Lemma parameter_lookup_witness :
  exists stack,
    AccountConfig.exampleStack "123456789012" = AccountConfig.Ok stack /\
    AccountConfig.getAllConfigKeys stack = ["stage"; "zone"] /\
    AccountConfig.hasConfig (fun _ _ => false) stack "region" = false /\
    AccountConfig.hasConfig (fun _ _ => false) stack "toString" = true.
Proof.
  destruct (parameter_lookup (number := Z) (fun _ => "null") "/app"
              (fun dir file => (dir ++ "/" ++ file)%string)
              (fun _ => inr "{}") (fun _ => inr AccountConfig.exampleContext)
              (fun _ _ => false) (fun _ => false)
              "123456789012" AccountConfig.exampleProps
              AccountConfig.exampleContext AccountConfig.exampleRecord
              "123456789012" "/account-config/123456789012")
    as (stack & Hok & Hkeys & _ & _ & Habsent).
  - reflexivity.
  - right. split; [now left | reflexivity].
  - right. split; [now left | reflexivity].
  - reflexivity.
  - now apply distinct_NoDup.
  - now apply distinct_NoDup.
  - intros key value [H|[H|[]]]; injection H as <- <-; reflexivity.
  - simpl. intuition discriminate.
  - exists stack. split; [exact Hok|]. split; [exact Hkeys|]. split.
    + apply (Habsent "region"); simpl; intuition discriminate.
    + apply (Habsent "toString"); simpl; intuition discriminate.
Defined.

Lemma context_unreadable_witness :
  AccountConfig.constructor Z (fun _ => "null") "/app"
    (fun dir file => (dir ++ "/" ++ file)%string)
    (fun _ => inl "Error: ENOENT") (fun _ => inr AccountConfig.exampleContext)
    "123456789012" AccountConfig.exampleProps
  = AccountConfig.Throw
      "Failed to read or parse context file at /app/cdk.context.json: Error: ENOENT".
Proof.
  apply (proj1 (proj2 (proj2
           (context_unreadable (number := Z) (fun _ => "null") "/app"
              (fun dir file => (dir ++ "/" ++ file)%string)
              (fun _ => inl "Error: ENOENT")
              (fun _ => inr AccountConfig.exampleContext)
              "123456789012" AccountConfig.exampleProps))) "Error: ENOENT").
  reflexivity.
Defined.

Lemma stack_outputs_witness :
  exists stack,
    AccountConfig.exampleStack "123456789012" = AccountConfig.Ok stack /\
    map fst (AccountConfig.outputsOf stack) =
      ["AccountId"; "ParameterPrefix"; "ConfigKeys";
       "StageParameterArn"; "ZoneParameterArn"].
Proof.
  destruct (stack_outputs (number := Z) (fun _ => "null") "/app"
              (fun dir file => (dir ++ "/" ++ file)%string)
              (fun _ => inr "{}") (fun _ => inr AccountConfig.exampleContext)
              "123456789012" AccountConfig.exampleProps
              AccountConfig.exampleContext AccountConfig.exampleRecord
              "123456789012" "/account-config/123456789012")
    as (stack & Hok & Hout).
  - reflexivity.
  - right. split; [now left | reflexivity].
  - right. split; [now left | reflexivity].
  - reflexivity.
  - now apply distinct_NoDup.
  - now apply distinct_NoDup.
  - intros key value [H|[H|[]]]; injection H as <- <-; reflexivity.
  - exists stack. split; [exact Hok|].
    apply (f_equal (map fst)) in Hout. rewrite map_map in Hout.
    exact Hout.
Defined.


(** ** ExampleStack *)

Section ExampleStackFacts.

Import Website ExampleStack.

Lemma replaceDots_label (s : string) : JS.isLabel "." (replaceDots s) = true.
Proof.
  induction s as [|c s IH]; [reflexivity|]. simpl.
  destruct (Ascii.eqb_spec c ".") as [->|Hc]; simpl; [exact IH|].
  apply Ascii.eqb_neq in Hc. now rewrite Hc.
Qed.

Lemma replaceDots_length (s : string) : String.length (replaceDots s) = String.length s.
Proof. induction s as [|c s IH]; simpl; [reflexivity | now rewrite IH]. Qed.

Lemma concat_dash_cons (c : ascii) (part : string) (parts : list string) :
  String.concat "-" (String c part :: parts)
  = String c (String.concat "-" (part :: parts)).
Proof. destruct parts; reflexivity. Qed.

Lemma replaceDots_split (s : string) :
  replaceDots s = JS.join "-" (JS.split "." s).
Proof.
  unfold JS.join. induction s as [|c s IH]; [reflexivity|]. simpl.
  pose proof (split_nonempty "." s) as Hne.
  destruct (Ascii.eqb c "."); destruct (JS.split "." s) as [|part parts];
    try contradiction.
  - rewrite IH. reflexivity.
  - rewrite IH. now rewrite concat_dash_cons.
Qed.

Lemma label_app (a b : string) :
  JS.isLabel "." a = true -> JS.isLabel "." b = true ->
  JS.isLabel "." (a ++ b) = true.
Proof.
  intros Ha Hb. induction a as [|c a IH]; [exact Hb|]. simpl in *.
  apply andb_prop in Ha. destruct Ha as [Hc Ha]. rewrite Hc. now apply IH.
Qed.

(** X20. For every domain the example stack names its two buckets after
    the domain with every dot replaced by a dash, followed by -website and
    -logs: the name is the parts of the domain joined by dashes, has no
    dot, and is as long as the domain plus the suffix. *)
Theorem example_bucket_names (props : ExampleStackProps) :
  let dashed := replaceDots (ex_domainName props) in
  dashed = JS.join "-" (JS.split "." (ex_domainName props)) /\
  String.length dashed = String.length (ex_domainName props) /\
  map (fun b => (fst b, b_bucketName (snd b)))
      (bucketsIn (websiteGraph (new_ExampleStack props)))
  = [ ("WebsiteBucket", Some (dashed ++ "-website")%string);
      ("LogsBucket", Some (dashed ++ "-logs")%string) ] /\
  (forall id b bucketName,
     In (id, b) (bucketsIn (websiteGraph (new_ExampleStack props))) ->
     b_bucketName b = Some bucketName ->
     JS.isLabel "." bucketName = true).
Proof.
  intro dashed.
  assert (Hb : map (fun b => (fst b, b_bucketName (snd b)))
                   (bucketsIn (websiteGraph (new_ExampleStack props)))
               = [ ("WebsiteBucket", Some (dashed ++ "-website")%string);
                   ("LogsBucket", Some (dashed ++ "-logs")%string) ]).
  { cbn [new_ExampleStack websiteGraph].
    change (snd (new_SecureWebsite (websiteProps props)))
      with (graph (websiteProps props)).
    destruct (bucketsIn_graph (websiteProps props))
      as (w & l & Hgraph & Hw & Hl & _).
    rewrite Hgraph. rewrite bucketOf_WebsiteBucket in Hw.
    injection Hw as <-. cbn. now rewrite Hl. }
  split; [apply replaceDots_split|].
  split; [apply replaceDots_length|].
  split; [exact Hb|].
  intros id b bucketName Hin Hname.
  assert (Hin' : In (id, b_bucketName b)
                    (map (fun b => (fst b, b_bucketName (snd b)))
                         (bucketsIn (websiteGraph (new_ExampleStack props))))).
  { apply in_map_iff. exists (id, b). split; [reflexivity | exact Hin]. }
  rewrite Hb, Hname in Hin'.
  destruct Hin' as [Heq|[Heq|[]]]; injection Heq as _ <-;
    apply label_app; try reflexivity; apply replaceDots_label.
Qed.

Lemma example_bucket_names_witness :
  map (fun b => (fst b, b_bucketName (snd b)))
      (bucketsIn (websiteGraph (new_ExampleStack testWebsiteStackProps)))
  = [ ("WebsiteBucket", Some "test-example-com-website");
      ("LogsBucket", Some "test-example-com-logs") ].
Proof.
  exact (proj1 (proj2 (proj2 (example_bucket_names testWebsiteStackProps)))).
Defined.

(** X21. For every domain, when the zone is looked up by name and no
    content source is given (as in the two stacks of the example app), the
    example stack builds a website whose construct ids are pairwise
    distinct, whose two buckets are destroyed with the stack and purged
    first (the stack names DESTROY itself), and whose web ACL has the four
    rules of the stack in the order given, with priorities 1, 2, 10 and
    11: two managed rule groups, a rate limit of 1000 and a geo block of
    CN, RU and KP; the stack carries the three tags Project, Environment
    and ManagedBy. *)
Theorem example_stack_resources (props : ExampleStackProps) :
  ex_hostedZoneId props = None \/ ex_hostedZoneId props = Some "" ->
  ex_codeSourcePath props = None \/ ex_codeSourcePath props = Some "" ->
  let stack := new_ExampleStack props in
  NoDup (ids (websiteGraph stack)) /\
  (forall id b,
     In (id, b) (bucketsIn (websiteGraph stack)) ->
     b_removalPolicy b = DESTROY /\ b_autoDeleteObjects b = true) /\
  (exists acl,
     webAclOf "WebACL" (websiteGraph stack) = Some acl /\
     map rp_priority (acl_rules acl) = [1; 2; 10; 11]%Z /\
     map rp_statement (acl_rules acl) =
       [ managedRuleGroupStatement "AWS" "AWSManagedRulesCommonRuleSet";
         managedRuleGroupStatement "AWS" "AWSManagedRulesKnownBadInputsRuleSet";
         rateBasedStatement 1000 "IP";
         geoMatchStatement ["CN"; "RU"; "KP"] ]) /\
  map fst (tags stack) = ["Project"; "Environment"; "ManagedBy"].
Proof.
  intros _ _ stack. subst stack. cbn [new_ExampleStack websiteGraph tags].
  change (snd (new_SecureWebsite (websiteProps props)))
    with (graph (websiteProps props)).
  split; [|split; [|split; [|reflexivity]]].
  - apply ids_distinct_iff. intros _. constructor.
  - destruct (bucketsIn_graph (websiteProps props))
      as (w & l & Hgraph & Hw & _ & Hpol & Hdel & _).
    rewrite bucketOf_WebsiteBucket in Hw. injection Hw as <-.
    rewrite Hgraph. cbn. intros id b [Heq|[Heq|[]]]; injection Heq as _ <-.
    + split; reflexivity.
    + rewrite Hpol, Hdel. split; reflexivity.
  - rewrite webAclOf_WebACL. eexists. split; [reflexivity|]. split; reflexivity.
Qed.

Lemma example_stack_resources_witness :
  let logs :=
    {| b_bucketName := Some "example-com-logs";
       b_publicReadAccess := false;
       b_blockPublicAccess := BLOCK_ALL;
       b_removalPolicy := DESTROY;
       b_autoDeleteObjects := true;
       b_versioned := None;
       b_encryption := None;
       b_lifecycleRules :=
         Some [ {| lr_id := "DeleteOldLogs"; lr_enabled := true;
                   lr_expiration := days 90 |} ] |} in
  In ("LogsBucket", logs)
     (bucketsIn (websiteGraph (new_ExampleStack exampleWebsiteStackProps))) /\
  b_removalPolicy logs = DESTROY /\ b_autoDeleteObjects logs = true.
Proof.
  intro logs.
  assert (Hin : In ("LogsBucket", logs)
                   (bucketsIn (websiteGraph (new_ExampleStack exampleWebsiteStackProps))))
    by (vm_compute; right; left; reflexivity).
  split; [exact Hin|].
  exact (proj1 (proj2 (example_stack_resources exampleWebsiteStackProps
                         (or_introl eq_refl) (or_introl eq_refl)))
           "LogsBucket" logs Hin).
Defined.

End ExampleStackFacts.
